(** * go-together: the event extraction pipeline

    A shallow embedding of the batch script [scripts/fetch-events.ts] and of
    the on-demand route handler [POST], with the properties their
    specification states about them.

    The file has two parts: the embedding of the code (the JavaScript
    runtime primitives the code calls, then the code itself, function by
    function), and the theorems.

    What lies outside the repository comes in as a value of [World]: the
    clock, the process environment, the search and language-model
    clients, and the engine's reading of date strings.  Console output
    is left out.  Strings are sequences of bytes (UTF-8). *)

From stdpp Require Import base gmap strings.
From Stdlib Require Import String Ascii.
From Stdlib Require Import ZArith List Bool Lia.
From Stdlib Require Import Permutation Sorted DecimalString.
Import ListNotations.

Local Open Scope string_scope.
Local Open Scope list_scope.
Local Open Scope Z_scope.

(* ===================================================================== *)
(** * Part I: the embedding *)
(* ===================================================================== *)

(** ** Thrown values and fallible calls *)

(** What a [catch (error: unknown)] clause can receive: an [Error] object,
    of which the code reads [message], or any other value, which the code
    turns into text with [String(error)]. *)
Inductive Thrown : Type :=
  | ErrorObject (message : string)
  | OtherValue (stringified : string).

(** The outcome of a call that may throw (an awaited promise that may
    reject). *)
Inductive Outcome (A : Type) : Type :=
  | Returns (a : A)
  | Throws (e : Thrown).
Arguments Returns {A} a.
Arguments Throws {A} e.

Definition bind {A B : Type} (c : Outcome A) (k : A -> Outcome B) : Outcome B :=
  match c with
  | Returns a => k a
  | Throws e => Throws e
  end.

Declare Scope outcome_scope.
Delimit Scope outcome_scope with outcome.
Notation "'await' x <- c ;; k" := (bind c (fun x => k))
  (at level 10, x name, c at level 99, k at level 200,
   format "'[v' 'await'  x  <-  c  ;; '/' k ']'") : outcome_scope.

(** [try { c } catch (e) { h e }] *)
Definition try_catch {A : Type} (c : Outcome A) (h : Thrown -> Outcome A) : Outcome A :=
  match c with
  | Returns a => Returns a
  | Throws e => h e
  end.

(** [Promise.all]: resolves with every value, in order, or rejects with
    the first rejection. *)
Fixpoint Promise_all {A : Type} (ps : list (Outcome A)) : Outcome (list A) :=
  match ps with
  | [] => Returns []
  | p :: ps' =>
      match p, Promise_all ps' with
      | Throws e, _ => Throws e
      | Returns _, Throws e => Throws e
      | Returns a, Returns l => Returns (a :: l)
      end
  end.

(** [Array.prototype.flat], on an array of arrays. *)
Definition flat {A : Type} (ls : list (list A)) : list A := concat ls.

(** ** [Map]: keyed by string, iterated in insertion order *)

Module JsMap.

Definition t (V : Type) : Type := list (string * V).

(** [m.set(k, v)]: a key already present keeps its place and gets the
    new value; a new key goes to the end. *)
Fixpoint set {V : Type} (k : string) (v : V) (m : t V) : t V :=
  match m with
  | [] => [(k, v)]
  | (k', v') :: m' =>
      if String.eqb k' k then (k', v) :: m' else (k', v') :: set k v m'
  end.

Fixpoint get {V : Type} (k : string) (m : t V) : option V :=
  match m with
  | [] => None
  | (k', v') :: m' => if String.eqb k' k then Some v' else get k m'
  end.

Definition set_entry {V : Type} (m : t V) (e : string * V) : t V :=
  set (fst e) (snd e) m.

(** [new Map(entries)]: the entries are [set] one after the other. *)
Definition of_entries {V : Type} (entries : list (string * V)) : t V :=
  fold_left set_entry entries [].

Definition keys {V : Type} (m : t V) : list string := map fst m.

(** [m.values()] *)
Definition values {V : Type} (m : t V) : list V := map snd m.

End JsMap.

(** ** Search hits and their deduplication *)

(** One search result, with the fields the pipeline reads. *)
Record RawHit : Type := mkRawHit {
  url : string;
  title : string;
  content : string
}.

(** [item => [item.url, item]] *)
Definition hit_entry (item : RawHit) : string * RawHit := (url item, item).

(** [Array.from(new Map(allRawResults.map(item => [item.url, item])).values())] *)
Definition uniqueResults (allRawResults : list RawHit) : list RawHit :=
  JsMap.values (JsMap.of_entries (map hit_entry allRawResults)).

(** The distinct elements of a list of links, each at the place of its
    first occurrence. *)
Fixpoint first_occurrences (links : list string) : list string :=
  match links with
  | [] => []
  | x :: rest => x :: filter (fun y => negb (String.eqb y x)) (first_occurrences rest)
  end.

(** ** Strings and numbers *)

(** The integers [lo], [lo + 1], ..., [n] of them. *)
Definition range (lo : Z) (n : nat) : list Z := map (fun k => lo + Z.of_nat k) (seq 0 n).

(** The double quote, as a one-character string. *)
Definition dquote : string := String (ascii_of_nat 34) EmptyString.

(** [String(n)] for an integer [n]: its decimal digits, with a minus sign
    before a negative one. *)
Definition String_of_number (n : Z) : string := NilZero.string_of_int (Z.to_int n).

Fixpoint repeat_char (c : ascii) (n : nat) : string :=
  match n with
  | O => EmptyString
  | S n' => String c (repeat_char c n')
  end.

(** [s.padStart(targetLength, c)] for a one-character pad string. *)
Definition padStart (targetLength : nat) (c : ascii) (s : string) : string :=
  repeat_char c (targetLength - String.length s) +:+ s.

(** [parts.join(sep)] *)
Definition join (sep : string) (parts : list string) : string := String.concat sep parts.

(** [s.slice(0, n)].  The code counts UTF-16 units and the embedding
    bytes, so on text outside ASCII the cut falls earlier here; what is
    said below of the place of the cut is said of text within ASCII,
    where a byte is a unit. *)
Definition slice_to (n : nat) (s : string) : string := String.substring 0 n s.


(** [hay.includes(needle)] *)
Fixpoint includes (hay needle : string) : bool :=
  String.prefix needle hay ||
  match hay with
  | EmptyString => false
  | String _ rest => includes rest needle
  end.

(** ** [Date]: the calendar fields of a local time *)

(** The code reads a date through [getFullYear], [getMonth] and [getDate]
    and changes it through [setMonth] only, so a [Date] is kept as its
    local year, month (0 for January) and day of the month.  The time of
    day, which [setMonth] leaves as it is, is not kept (a change of the
    clocks at midnight, which could move the day, is not modelled). *)
Module JsDate.

Record t : Type := mk { getFullYear : Z; getMonth : Z; getDate : Z }.

(** The calendar is counted in eras of 400 years (146097 days) that
    start on 1 March.  The day of the era of a day given by its year of
    the era, its month (1 to 12; January and February belong to the year
    that started the March before) and its day, which may run past the
    end of the month. *)
Definition day_of_era (yoe m d : Z) : Z :=
  let doy := (153 * (if m >? 2 then m - 3 else m + 9) + 2) / 5 + d - 1 in
  yoe * 365 + yoe / 4 - yoe / 100 + doy.

(** Days from 1970-01-01 to the given day of the proleptic Gregorian
    calendar; [m] runs from 1 to 12, [d] may run past the month. *)
Definition days_from_civil (y m d : Z) : Z :=
  let y' := if m <=? 2 then y - 1 else y in
  let era := y' / 400 in
  let yoe := y' - era * 400 in
  era * 146097 + day_of_era yoe m d - 719468.

(** The year of the era, month (1 to 12) and day of a day of the era. *)
Definition civil_of_day_of_era (doe : Z) : Z * Z * Z :=
  let yoe := (doe - doe / 1460 + doe / 36524 - doe / 146096) / 365 in
  let doy := doe - (365 * yoe + yoe / 4 - yoe / 100) in
  let mp := (5 * doy + 2) / 153 in
  let d := doy - (153 * mp + 2) / 5 + 1 in
  let m := if mp <? 10 then mp + 3 else mp - 9 in
  (yoe, m, d).

(** The year, month (1 to 12) and day of a day number. *)
Definition civil_from_days (z : Z) : Z * Z * Z :=
  let z' := z + 719468 in
  let era := z' / 146097 in
  let '(yoe, m, d) := civil_of_day_of_era (z' - era * 146097) in
  (yoe + era * 400 + (if m <=? 2 then 1 else 0), m, d).

(** [MakeDay(year, month, date)] of the language definition: months
    outside 0..11 carry into the year, and the day is counted on from
    the first of the month, so a day past the end of the month runs
    into the next one. *)
Definition MakeDay (year month date : Z) : Z :=
  let ym := year + month / 12 in
  let mn := month mod 12 in
  days_from_civil ym (mn + 1) 1 + date - 1.

Definition of_day (day : Z) : t :=
  let '(y, m, d) := civil_from_days day in
  mk y (m - 1) d.

(** [d.setMonth(month)]: the date with the same year and day of the
    month and the new month, brought back to a calendar date. *)
Definition setMonth (d : t) (month : Z) : t :=
  of_day (MakeDay (getFullYear d) month (getDate d)).

End JsDate.

(** ** The query planner *)

Record DateParams : Type := mkDateParams {
  startDate : string;
  endDate : string;
  searchString : string
}.

Definition formatDate (date : JsDate.t) : string :=
  let yyyy := String_of_number (JsDate.getFullYear date) in
  let mm := padStart 2 "0"%char (String_of_number (JsDate.getMonth date + 1)) in
  let dd := padStart 2 "0"%char (String_of_number (JsDate.getDate date)) in
  yyyy +:+ "/" +:+ mm +:+ "/" +:+ dd.

(** One turn of the loop of [getDynamicDateParams], for the index [i]. *)
Definition monthKeyword (now : JsDate.t) (i : Z) : string :=
  let d := JsDate.setMonth now (JsDate.getMonth now + i) in
  let year := JsDate.getFullYear d in
  let month := JsDate.getMonth d + 1 in
  dquote +:+ String_of_number year +:+ " " +:+ String_of_number month +:+ "月" +:+ dquote.

(** [getDynamicDateParams()], with the value of [new Date()] passed in. *)
Definition getDynamicDateParams (now : JsDate.t) : DateParams :=
  let startDate := formatDate now in
  let futureDate := JsDate.setMonth now (JsDate.getMonth now + 2) in
  let endDate := formatDate futureDate in
  let monthKeywords := map (monthKeyword now) [0; 1; 2] in
  let searchString := join " OR " monthKeywords in
  mkDateParams startDate endDate searchString.

Definition quoted (s : string) : string := dquote +:+ s +:+ dquote.

(** What the specification asks of the keyword string: the current
    calendar month and the two that follow it, one term each. *)
Definition calendar_month_after (now : JsDate.t) (i : Z) : Z * Z :=
  let m := JsDate.getMonth now + i in
  (JsDate.getFullYear now + m / 12, m mod 12 + 1).

Definition spec_monthKeyword (now : JsDate.t) (i : Z) : string :=
  let '(year, month) := calendar_month_after now i in
  dquote +:+ String_of_number year +:+ " " +:+ String_of_number month +:+ "月" +:+ dquote.

Definition spec_searchString (now : JsDate.t) : string :=
  join " OR " (map (spec_monthKeyword now) [0; 1; 2]).

(** ** The search collector *)

(** A configured source site. *)
Record Site : Type := mkSite { name : string; domain : string }.

Definition TARGET_SITES : list Site :=
  [ mkSite "KKTIX" "kktix.com";
    mkSite "寬宏" "kham.com.tw";
    mkSite "年代" "ticket.com.tw";
    mkSite "遠大" "ticketplus.com.tw";
    mkSite "iNDIEVOX" "indievox.com";
    mkSite "BILLBOARD LIVE TAIPEI" "billboardlivetaipei.tw";
    mkSite "華山文創園區" "huashan1914.com" ].

Record SearchOptions : Type := mkSearchOptions {
  maxResults : Z;
  search_depth : string
}.

(** A search client, seen through its one method: [tvly.search(query,
    options)] gives the [results] of the response, or throws. *)
Definition TavilyClient : Type := string -> SearchOptions -> Outcome (list RawHit).

Definition site_query (searchString : string) (site : Site) : string :=
  "site:" +:+ domain site +:+ " ( " +:+ searchString +:+ " )".

Definition site_options (site : Site) : SearchOptions :=
  mkSearchOptions 15
    (if String.eqb (name site) "BILLBOARD LIVE TAIPEI" then "advanced" else "basic").

(** The body of [TARGET_SITES.map(async (site) => ...)]: one promise for
    one site.  The rejection of the search call is caught inside it. *)
Definition searchPromise (tvly : TavilyClient) (searchString : string) (site : Site)
  : Outcome (list RawHit) :=
  try_catch (tvly (site_query searchString site) (site_options site))
            (fun _ => Returns []).

(** [(await Promise.all(searchPromises)).flat()].  The calls share no
    state, so the order in which they run does not show in the result. *)
Definition allRawResults (tvly : TavilyClient) (searchString : string) (sites : list Site)
  : Outcome (list RawHit) :=
  (await per_site <- Promise_all (map (searchPromise tvly searchString) sites) ;;
   Returns (flat per_site))%outcome.

(** What one source brings to the merged list: its results, and nothing
    when its search call throws. *)
Definition source_results (tvly : TavilyClient) (searchString : string) (site : Site)
  : list RawHit :=
  match tvly (site_query searchString site) (site_options site) with
  | Returns hits => hits
  | Throws _ => []
  end.

(** ** JSON values *)

(** A parsed JSON value.  Numbers are kept as integers: the schema below
    has no numeric field, so a number is only ever refused. *)
Local Unset Elimination Schemes.
Inductive Json : Type :=
  | JNull
  | JBool (b : bool)
  | JNumber (n : Z)
  | JString (s : string)
  | JArray (items : list Json)
  | JObject (fields : list (string * Json)).
Local Set Elimination Schemes.

(** [o[key]] on the fields of an object; [None] is [undefined]. *)
Fixpoint property (key : string) (fields : list (string * Json)) : option Json :=
  match fields with
  | [] => None
  | (k, v) :: rest => if String.eqb k key then Some v else property key rest
  end.

(** ** Events *)

Module Session.
Record t : Type := mk {
  location : string;
  date : list string;
  url : string
}.
End Session.

Module Event.
Record t : Type := mk {
  description : string;
  title : string;
  image_url : option string;
  sessions : list Session.t;
  category : string;
  tags : option (list string);
  url : string;
  source : string
}.
End Event.

(** The object the extraction gives back: [{ events: Event[] }]. *)
Record EventsObject : Type := mkEventsObject { events : list Event.t }.

(** ** The schema *)

(** A schema is the function that validates a value against it: the
    typed value when the value conforms, [None] when it does not.
    [describe] only attaches text to a schema and is left out. *)
Module Zod.

Definition Schema (A : Type) : Type := Json -> option A.

(** [z.string()] *)
Definition string_ : Schema string :=
  fun v => match v with JString s => Some s | _ => None end.

Fixpoint parse_items {A : Type} (item : Schema A) (items : list Json) : option (list A) :=
  match items with
  | [] => Some []
  | v :: rest =>
      match item v, parse_items item rest with
      | Some a, Some l => Some (a :: l)
      | _, _ => None
      end
  end.

(** [z.array(item)]: any number of elements, each conforming to [item]. *)
Definition array {A : Type} (item : Schema A) : Schema (list A) :=
  fun v => match v with JArray items => parse_items item items | _ => None end.

(** [z.enum(values)] *)
Definition enum (values : list string) : Schema string :=
  fun v =>
    match v with
    | JString s => if existsb (String.eqb s) values then Some s else None
    | _ => None
    end.

(** A key of [z.object({...})] whose schema is not optional. *)
Definition required {A : Type} (schema : Schema A) (key : string)
    (fields : list (string * Json)) : option A :=
  match property key fields with
  | Some v => schema v
  | None => None
  end.

(** A key whose schema ends in [.optional()]: it may be missing. *)
Definition optional {A : Type} (schema : Schema A) (key : string)
    (fields : list (string * Json)) : option (option A) :=
  match property key fields with
  | Some v => option_map Some (schema v)
  | None => Some None
  end.

(** [z.object({...})] takes an object and nothing else. *)
Definition object {A : Type} (shape : list (string * Json) -> option A) : Schema A :=
  fun v => match v with JObject fields => shape fields | _ => None end.

End Zod.

Definition EventCategoryEnum : Zod.Schema string :=
  Zod.enum ["演唱會"; "展覽"; "表演藝術"; "生活休閒"; "其他"].

(** The schema of one element of [sessions]. *)
Definition SessionSchema : Zod.Schema Session.t :=
  Zod.object (fun fields =>
    location ← Zod.required Zod.string_ "location" fields;
    date ← Zod.required (Zod.array Zod.string_) "date" fields;
    url ← Zod.required Zod.string_ "url" fields;
    Some (Session.mk location date url)).

(** The schema of one element of [events]. *)
Definition EventItemSchema : Zod.Schema Event.t :=
  Zod.object (fun fields =>
    description ← Zod.required Zod.string_ "description" fields;
    title ← Zod.required Zod.string_ "title" fields;
    image_url ← Zod.optional Zod.string_ "image_url" fields;
    sessions ← Zod.required (Zod.array SessionSchema) "sessions" fields;
    category ← Zod.required EventCategoryEnum "category" fields;
    tags ← Zod.optional (Zod.array Zod.string_) "tags" fields;
    url ← Zod.required Zod.string_ "url" fields;
    source ← Zod.required
      (Zod.enum ["KKTIX"; "寬宏"; "遠大"; "年代"; "iNDIEVOX"; "BILLBOARD LIVE TAIPEI";
                 "華山文創園區"; "其他"]) "source" fields;
    Some (Event.mk description title image_url sessions category tags url source)).

Definition EventSchema : Zod.Schema EventsObject :=
  Zod.object (fun fields =>
    events ← Zod.required (Zod.array EventItemSchema) "events" fields;
    Some (mkEventsObject events)).

(** A session as a JSON object. *)
Definition session_json (location : string) (date : list string) (url : string) : Json :=
  JObject [ ("location", JString location);
            ("date", JArray (map JString date));
            ("url", JString url) ].

(** ** The sorter *)

(** [Array.prototype.sort(comparefn)].  The language definition asks for
    a stable sort, reads a [NaN] answer of [comparefn] as [+0], and leaves
    the order open when [comparefn] is not a consistent order; engines
    sort short arrays by insertion.  The embedding is the stable
    insertion sort.  An answer of [comparefn] is a number: [None] is
    [NaN]. *)
Module JsArray.

Definition answer (v : option Z) : Z :=
  match v with
  | Some z => z
  | None => 0
  end.

Fixpoint insert {A : Type} (comparefn : A -> A -> option Z) (x : A) (l : list A) : list A :=
  match l with
  | [] => [x]
  | y :: rest =>
      if answer (comparefn x y) <=? 0 then x :: y :: rest
      else y :: insert comparefn x rest
  end.

Definition sort {A : Type} (comparefn : A -> A -> option Z) (l : list A) : list A :=
  fold_right (insert comparefn) [] l.

End JsArray.

(** [a.sessions[0]?.date[0]]; [None] is [undefined]. *)
Definition leading_date (a : Event.t) : option string :=
  match Event.sessions a with
  | [] => None
  | s :: _ =>
      match Session.date s with
      | [] => None
      | d :: _ => Some d
      end
  end.

(** [new Date(x).valueOf()]: the time value in milliseconds, [None] for
    [NaN].  How a string is read as a date is the engine's business and
    comes as [Date_parse]; [new Date(undefined)] is an invalid date. *)
Definition Date_valueOf (Date_parse : string -> option Z) (x : option string) : option Z :=
  match x with
  | Some s => Date_parse s
  | None => None
  end.

(** [dateA - dateB].  Time values are integers of at most 8.64e15 in
    size, so the difference of two of them, rounded or not, has the sign
    of their exact difference; the sorter reads nothing but that sign. *)
Definition subtract (dateA dateB : option Z) : option Z :=
  match dateA, dateB with
  | Some x, Some y => Some (x - y)
  | _, _ => None
  end.

(** The comparator given to [events.sort]. *)
Definition by_leading_date (Date_parse : string -> option Z) (a b : Event.t) : option Z :=
  let dateA := Date_valueOf Date_parse (leading_date a) in
  let dateB := Date_valueOf Date_parse (leading_date b) in
  subtract dateA dateB.

(** Calendar order of two events by the first date of their first
    session; it holds of no event whose leading date is missing or cannot
    be read. *)
Definition leading_date_le (Date_parse : string -> option Z) (a b : Event.t) : Prop :=
  match Date_valueOf Date_parse (leading_date a), Date_valueOf Date_parse (leading_date b) with
  | Some x, Some y => x <= y
  | _, _ => False
  end.

Definition has_leading_date (Date_parse : string -> option Z) (a : Event.t) : Prop :=
  exists t, Date_valueOf Date_parse (leading_date a) = Some t.

(** ** The context assembler *)

Definition newline : string := String (ascii_of_nat 10) EmptyString.

(** [(r, i) => `[ID:${i}] ...`], with the snippet cut to [budget]
    characters. *)
Definition context_block (budget : nat) (i : Z) (r : RawHit) : string :=
  "[ID:" +:+ String_of_number i +:+ "] 標題: " +:+ title r +:+ newline +:+
  "來源: " +:+ url r +:+ newline +:+
  "內文摘要: " +:+ slice_to budget (content r).

Fixpoint map_indexed {A B : Type} (f : Z -> A -> B) (i : Z) (l : list A) : list B :=
  match l with
  | [] => []
  | a :: rest => f i a :: map_indexed f (i + 1) rest
  end.

Definition searchContext (budget : nat) (uniqueResults : list RawHit) : string :=
  join (newline +:+ newline +:+ "---" +:+ newline +:+ newline)
       (map_indexed (context_block budget) 0 uniqueResults).

(** ** The prompts *)
(** The template literal given as [prompt] to [generateObject] in the
    batch script. *)
Definition script_prompt (startDate endDate searchContext : string) : string :=
  "
            你是一個嚴謹的活動資料提取員。

            【任務目標】
            從提供的 Raw Data 中提取符合時間範圍的活動資訊。

            【資料聚合規則 (Aggregation)】
            若多個搜尋結果為「同一個巡迴/展覽」的不同場地或時間：
            1. 合併為單一 Event 物件。
            2. 主標題 (title) 使用最通用名稱，去除地點後綴（如「台北站」）。
            3. 場次資訊放入 sessions 陣列。
            4. sessions 陣列的 location 必須提取「完整的展演場館名稱」（如 " +:+ dquote +:+ "Zepp New Taipei" +:+ dquote +:+ "、" +:+ dquote +:+ "台北小巨蛋" +:+ dquote +:+ "）。若僅提及城市填寫城市名，完全無資訊填寫 " +:+ dquote +:+ "未知" +:+ dquote +:+ "。絕對不可自行簡化場館名。
            5. 特殊指定：若來源為 Billboard Live TAIPEI 或 華山文創園區，location 請直接填寫 " +:+ dquote +:+ "BILLBOARD LIVE TAIPEI" +:+ dquote +:+ " 或 " +:+ dquote +:+ "華山文創園區" +:+ dquote +:+ "。

            【時間範圍】
            今天日期："
  +:+ startDate
  +:+ "
            目標範圍："
  +:+ startDate
  +:+ " ~ "
  +:+ endDate
  +:+ "
            
            【日期格式嚴格要求】
            請將活動日期轉換為 JSON String Array：
            1. **單日活動**：陣列只有一個元素。
                範例：[" +:+ dquote +:+ "2026-02-15" +:+ dquote +:+ "]
            2. **連續/區間活動**：陣列有兩個元素，代表 [開始日期, 結束日期]。
                範例：[" +:+ dquote +:+ "2026-02-15" +:+ dquote +:+ ", " +:+ dquote +:+ "2026-03-10" +:+ dquote +:+ "]

            【過濾規則】
            1. 嚴格捨棄：內文未提及日期、日期不在目標範圍內。
            2. 雜訊排除：純粹的 " +:+ dquote +:+ "會員登入頁" +:+ dquote +:+ "、" +:+ dquote +:+ "購票須知" +:+ dquote +:+ "、" +:+ dquote +:+ "過期活動" +:+ dquote +:+ "。

            【分類邏輯】
            1. 演唱會：包含 巡迴、Live、演唱會、見面會、音樂祭。
            2. 展覽：包含 特展、展覽、美術館、博覽會、快閃店。
            3. 表演藝術：包含 舞台劇、音樂劇、舞蹈、馬戲、脫口秀、相聲。
            4. 生活休閒：包含 市集、講座、工作坊、路跑、營隊。
            5. 其他：無法歸類者。

            【待處理資料】
            "
  +:+ searchContext
  +:+ "
        ".

(** The template literal given as [prompt] to [generateObject] in the
    route handler. *)
Definition route_prompt (startDate endDate searchContext : string) : string :=
  "
        你是一個嚴謹的活動資料提取員。

        【任務目標】
        從提供的 Raw Data 中提取符合時間範圍的活動資訊。

        【資料聚合規則 (Aggregation)】
        若多個搜尋結果為「同一個巡迴/展覽」的不同場地或時間：
        1. 合併為單一 Event 物件。
        2. 主標題 (title) 使用最通用名稱，去除地點後綴（如「台北站」）。
        3. 場次資訊放入 sessions 陣列。
        4. sessions 陣列的 location 必須提取「完整的展演場館名稱」（如 " +:+ dquote +:+ "Zepp New Taipei" +:+ dquote +:+ "、" +:+ dquote +:+ "台北小巨蛋" +:+ dquote +:+ "）。若僅提及城市填寫城市名，完全無資訊填寫 " +:+ dquote +:+ "未知" +:+ dquote +:+ "。絕對不可自行簡化場館名。
        5. 特殊指定：若來源為 Billboard Live TAIPEI 或 華山文創園區，location 請直接填寫 " +:+ dquote +:+ "BILLBOARD LIVE TAIPEI" +:+ dquote +:+ " 或 " +:+ dquote +:+ "華山文創園區" +:+ dquote +:+ "。

        【時間範圍】
        今天日期："
  +:+ startDate
  +:+ "
        目標範圍："
  +:+ startDate
  +:+ " ~ "
  +:+ endDate
  +:+ "

        【日期格式嚴格要求】
        請將活動日期轉換為 JSON String Array：
        1. **單日活動**：陣列只有一個元素。
            範例：[" +:+ dquote +:+ "2026-02-15" +:+ dquote +:+ "]
        2. **連續/區間活動**：陣列有兩個元素，代表 [開始日期, 結束日期]。
            範例：[" +:+ dquote +:+ "2026-02-15" +:+ dquote +:+ ", " +:+ dquote +:+ "2026-03-10" +:+ dquote +:+ "]

        【過濾規則】
        1. 嚴格捨棄：內文未提及日期、日期不在目標範圍內。
        2. 雜訊排除：純粹的 " +:+ dquote +:+ "會員登入頁" +:+ dquote +:+ "、" +:+ dquote +:+ "購票須知" +:+ dquote +:+ "、" +:+ dquote +:+ "過期活動" +:+ dquote +:+ "。

        【分類邏輯】
        1. 演唱會：包含 巡迴、Live、演唱會、見面會、音樂祭。
        2. 展覽：包含 特展、展覽、美術館、博覽會、快閃店。
        3. 表演藝術：包含 舞台劇、音樂劇、舞蹈、馬戲、脫口秀、相聲。
        4. 生活休閒：包含 市集、講座、工作坊、路跑、營隊。
        5. 其他：無法歸類者。

        【待處理資料】
        "
  +:+ searchContext
  +:+ "
      ".

(** ** The collaborators *)

(** A language model, seen through [generateObject]: it is given the
    prompt and gives back its answer as a JSON value, or throws (a
    transport failure, an exhausted quota). *)
Definition Model : Type := string -> Outcome Json.

(** A provider gives the model of a name: [googleAI('gemini-2.5-flash')]. *)
Definition Provider : Type := string -> Model.

(** What a run meets outside the repository's code: the clock, the
    process environment, the vendor clients and the engine's reading of
    date strings.  The clients' constructors are given the key the code
    passes them ([None] for [undefined]) and may throw. *)
Record World : Type := mkWorld {
  now : JsDate.t;
  env : gmap string string;
  createGoogleGenerativeAI : option string -> Outcome Provider;
  google : Provider;
  tavily : option string -> Outcome TavilyClient;
  Date_parse : string -> option Z
}.

(** The world with another process environment. *)
Definition with_env (w : World) (e : gmap string string) : World :=
  mkWorld (now w) e (createGoogleGenerativeAI w) (google w) (tavily w) (Date_parse w).

(** What [generateObject] throws when the model's answer does not conform
    to the schema (the wording is the library's). *)
Definition NoObjectGeneratedError : Thrown :=
  ErrorObject "No object generated: response did not match schema.".

(** [generateObject({ model, schema, prompt })].[object] *)
Definition generateObject {A : Type} (model : Model) (schema : Zod.Schema A) (prompt : string)
  : Outcome A :=
  (await answer <- model prompt ;;
   match schema answer with
   | Some object => Returns object
   | None => Throws NoObjectGeneratedError
   end)%outcome.

(** ** The batch script *)

(** The steps of [main()] from the searches to the extraction: what
    [generateObject] gives back as [result.object]. *)
Definition script_extraction (w : World) (googleAI : Provider) (tvly : TavilyClient)
  : Outcome EventsObject :=
  (let params := getDynamicDateParams (now w) in
   await allRaw <- allRawResults tvly (searchString params) TARGET_SITES ;;
   let unique := uniqueResults allRaw in
   let context := searchContext 1000 unique in
   generateObject (googleAI "gemini-2.5-flash") EventSchema
     (script_prompt (startDate params) (endDate params) context))%outcome.

(** [main()].  [Returns events] stands for the run that writes [events]
    to the output file; [Throws] for the run that ends in
    [process.exit(1)] with the file untouched. *)
Definition main (w : World) (googleAI : Provider) : Outcome (list Event.t) :=
  (await tvly <- tavily w (Some "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") ;;
   await result <- script_extraction w googleAI tvly ;;
   let sorted := JsArray.sort (by_leading_date (Date_parse w)) (events result) in
   Returns sorted)%outcome.

(** The script from its first line: the provider is built when the module
    loads, from the key in the environment (as it is once [dotenv] has
    read the [.env] file), then [main] runs. *)
Definition fetch_events (w : World) : Outcome (list Event.t) :=
  (await googleAI <- createGoogleGenerativeAI w (env w !! "GOOGLE_GENERATIVE_AI_API_KEY") ;;
   main w googleAI)%outcome.

(** ** The route handler *)

(** A request, seen through [await req.json()]. *)
Record Request : Type := mkRequest { req_json : Outcome Json }.

Inductive ResponseBody : Type :=
  | EventsBody (object : EventsObject)
  | ErrorBody (error message : string).

Record Response : Type := mkResponse { status : Z; body : ResponseBody }.

(** What destructuring [null] throws (the wording is the engine's). *)
Definition TypeError_destructure : Thrown :=
  ErrorObject "Cannot destructure property 'prompt' of '(intermediate value)' as it is null.".

(** [const { prompt } = body]: [null] cannot be destructured; any other
    value can, and [prompt] is [undefined] when it has no such property. *)
Definition destructure_prompt (body : Json) : Outcome (option Json) :=
  match body with
  | JNull => Throws TypeError_destructure
  | JObject fields => Returns (property "prompt" fields)
  | _ => Returns None
  end.

(** The steps of the [try] block from the searches to the extraction. *)
Definition route_extraction (w : World) (tvly : TavilyClient) : Outcome EventsObject :=
  (let params := getDynamicDateParams (now w) in
   await allRaw <- allRawResults tvly (searchString params) TARGET_SITES ;;
   let unique := uniqueResults allRaw in
   let context := searchContext 1000 unique in
   generateObject (google w "gemini-2.5-flash") EventSchema
     (route_prompt (startDate params) (endDate params) context))%outcome.

(** The [try] block of [POST]. *)
Definition POST_try (w : World) (req : Request) : Outcome Response :=
  (await body <- req_json req ;;
   await prompt <- destructure_prompt body ;;
   await tvly <- tavily w (env w !! "TAVILY_API_KEY") ;;
   await result <- route_extraction w tvly ;;
   Returns (mkResponse 200 (EventsBody result)))%outcome.

(** [error instanceof Error ? error.message : String(error)] *)
Definition message_of (error : Thrown) : string :=
  match error with
  | ErrorObject message => message
  | OtherValue stringified => stringified
  end.

(** The [catch] block of [POST]. *)
Definition POST_catch (error : Thrown) : Response :=
  let message := message_of error in
  if includes message "quota" || includes message "429" || includes message "exceeded"
  then mkResponse 429 (ErrorBody "QUOTA_EXCEEDED" "API 額度已用完，請稍後再試或更換 API Key。")
  else mkResponse 500 (ErrorBody "INTERNAL_ERROR" ("伺服器錯誤：" +:+ message)).

Definition POST (w : World) (req : Request) : Response :=
  match POST_try w req with
  | Returns response => response
  | Throws error => POST_catch error
  end.

(** [hay] has [needle] somewhere in it. *)
Definition contains (hay needle : string) : Prop :=
  exists before after, hay = before +:+ needle +:+ after.

(** ** Sample worlds *)

(** Concrete collaborators, on which the definitions above can be run. *)
Module Sample.

Definition digit (c : ascii) : option Z :=
  let n := Z.of_nat (nat_of_ascii c) in
  if (48 <=? n) && (n <=? 57) then Some (n - 48) else None.

Fixpoint digits (s : string) (acc : Z) : option Z :=
  match s with
  | EmptyString => Some acc
  | String c rest =>
      match digit c with
      | Some d => digits rest (acc * 10 + d)
      | None => None
      end
  end.

(** An engine that reads the date-only form [YYYY-MM-DD] as the
    language definition has it, midnight UTC in milliseconds, and takes
    every other string for an invalid date. *)
Definition Date_parse (s : string) : option Z :=
  if (String.length s =? 10)%nat
     && String.eqb (String.substring 4 1 s) "-"
     && String.eqb (String.substring 7 1 s) "-"
  then
    y ← digits (String.substring 0 4 s) 0;
    m ← digits (String.substring 5 2 s) 0;
    d ← digits (String.substring 8 2 s) 0;
    if (1 <=? m) && (m <=? 12) && (1 <=? d) && (d <=? 31)
    then Some (JsDate.days_from_civil y m d * 86400000)
    else None
  else None.

Definition hit_tour_taipei : RawHit :=
  mkRawHit "https://kktix.com/events/tour" "Artist X 台北站" "2026-03-01 Zepp New Taipei".
Definition hit_expo : RawHit :=
  mkRawHit "https://kktix.com/events/expo" "Photo Expo" "2026-03-02 ~ 2026-03-20".
Definition hit_tour_again : RawHit :=
  mkRawHit "https://kktix.com/events/tour" "Artist X 巡迴" "2026-03-01, 2026-03-08".

(** A search client: two hits for the first site, a failure for the
    second, a hit with an already seen link for the fifth, nothing for
    the others. *)
Definition client : TavilyClient :=
  fun query _ =>
    if includes query "site:kktix.com" then Returns [hit_tour_taipei; hit_expo]
    else if includes query "site:kham.com.tw" then Throws (ErrorObject "fetch failed")
    else if includes query "site:indievox.com" then Returns [hit_tour_again]
    else Returns [].

Definition event_json (title : string) (sessions : list Json) : Json :=
  JObject [ ("description", JString "");
            ("title", JString title);
            ("sessions", JArray sessions);
            ("category", JString "演唱會");
            ("url", JString "https://kktix.com/events/tour");
            ("source", JString "KKTIX") ].

Definition event_of (title : string) (sessions : list Session.t) : Event.t :=
  Event.mk "" title None sessions "演唱會" None "https://kktix.com/events/tour" "KKTIX".

Definition answer_of (events : list Json) : Json := JObject [("events", JArray events)].

(** Three events with readable leading dates, out of order. *)
Definition dated_answer : Json :=
  answer_of
    [ event_json "Late" [session_json "Legacy" ["2026-03-09"] "https://kktix.com/l"];
      event_json "Early" [session_json "Zepp" ["2026-03-01"; "2026-03-05"] "https://kktix.com/e"];
      event_json "Middle" [session_json "Zepp" ["2026-03-02"] "https://kktix.com/m"] ].

Definition late : Event.t :=
  event_of "Late" [Session.mk "Legacy" ["2026-03-09"] "https://kktix.com/l"].
Definition early : Event.t :=
  event_of "Early" [Session.mk "Zepp" ["2026-03-01"; "2026-03-05"] "https://kktix.com/e"].
Definition middle : Event.t :=
  event_of "Middle" [Session.mk "Zepp" ["2026-03-02"] "https://kktix.com/m"].

(** An event with a session that has no date between two dated events,
    the later one first. *)
Definition undated_answer : Json :=
  answer_of
    [ event_json "Middle" [session_json "Zepp" ["2026-03-02"] "https://kktix.com/m"];
      event_json "Undated" [session_json "Zepp" [] "https://kktix.com/u"];
      event_json "Early" [session_json "Zepp" ["2026-03-01"; "2026-03-05"] "https://kktix.com/e"] ].

Definition undated : Event.t :=
  event_of "Undated" [Session.mk "Zepp" [] "https://kktix.com/u"].

(** Vendor constructors that take any key, present or not. *)
Definition world (now : JsDate.t) (env : gmap string string) (model : Model) : World :=
  mkWorld now env (fun _ => Returns (fun _ => model)) (fun _ => model)
          (fun _ => Returns client) Date_parse.

Definition NoKeyError : Thrown := ErrorObject "No API key provided.".

(** Vendor constructors that throw when they are given no key. *)
Definition strict_world (now : JsDate.t) (env : gmap string string) (model : Model) : World :=
  mkWorld now env
    (fun key => match key with Some _ => Returns (fun _ => model) | None => Throws NoKeyError end)
    (fun _ => model)
    (fun key => match key with Some _ => Returns client | None => Throws NoKeyError end)
    Date_parse.

Definition today : JsDate.t := JsDate.mk 2026 1 10.

Definition both_keys : gmap string string :=
  {[ "GOOGLE_GENERATIVE_AI_API_KEY" := "g-key"; "TAVILY_API_KEY" := "t-key" ]}.

Definition llm_key_only : gmap string string :=
  {[ "GOOGLE_GENERATIVE_AI_API_KEY" := "g-key" ]}.

Definition request (prompt : string) : Request :=
  mkRequest (Returns (JObject [("prompt", JString prompt)])).

(** A world whose model answers [dated_answer], and its provider. *)
Definition dated_provider : Provider := fun _ _ => Returns dated_answer.
Definition dated_world : World := world today both_keys (fun _ => Returns dated_answer).

(** A world whose model answers [undated_answer]. *)
Definition undated_world : World := world today both_keys (fun _ => Returns undated_answer).

(** Worlds whose model throws. *)
Definition quota_world : World :=
  world today both_keys (fun _ => Throws (ErrorObject "429 Too Many Requests")).
Definition exceeded_world : World :=
  world today both_keys (fun _ => Throws (ErrorObject "Deadline exceeded")).

(** A world with the model's key and no search key in the environment,
    and constructors that throw when they are given no key. *)
Definition no_search_key_world : World :=
  strict_world today llm_key_only (fun _ => Returns dated_answer).

End Sample.

(** ** Events as JSON *)

(** The JSON value that [JSON.stringify] writes for a validated object,
    and [Response.json] sends: the properties in the order of the schema,
    a property that is [undefined] left out. *)
Definition optional_property (key : string) (value : option Json) : list (string * Json) :=
  match value with
  | Some v => [(key, v)]
  | None => []
  end.

Definition Session_to_json (s : Session.t) : Json :=
  session_json (Session.location s) (Session.date s) (Session.url s).

Definition Event_to_json (e : Event.t) : Json :=
  JObject
    ([ ("description", JString (Event.description e));
       ("title", JString (Event.title e)) ]
     ++ optional_property "image_url" (option_map JString (Event.image_url e))
     ++ [ ("sessions", JArray (map Session_to_json (Event.sessions e)));
          ("category", JString (Event.category e)) ]
     ++ optional_property "tags"
          (option_map (fun tags => JArray (map JString tags)) (Event.tags e))
     ++ [ ("url", JString (Event.url e));
          ("source", JString (Event.source e)) ]).

Definition EventsObject_to_json (o : EventsObject) : Json :=
  JObject [("events", JArray (map Event_to_json (events o)))].

(** The labels of the two enumerations of the schema. *)
Definition category_labels : list string :=
  ["演唱會"; "展覽"; "表演藝術"; "生活休閒"; "其他"].

Definition source_labels : list string :=
  ["KKTIX"; "寬宏"; "遠大"; "年代"; "iNDIEVOX"; "BILLBOARD LIVE TAIPEI"; "華山文創園區"; "其他"].

(** ** The page *)

(** [Set], of strings: iterated in insertion order. *)
Module JsSet.

Definition t : Type := list string.

(** [s.add(x)] *)
Definition add (x : string) (s : t) : t :=
  if existsb (String.eqb x) s then s else s ++ [x].

End JsSet.

(** What [Array.prototype.sort] compares strings with when it is given no
    comparator: the order of their code units, here of their bytes. *)
Definition compare_strings (a b : string) : option Z :=
  match String.compare a b with
  | Lt => Some (-1)
  | Eq => Some 0
  | Gt => Some 1
  end.

(** An [Array.prototype.sort] whose comparator may throw: the sort ends
    with what the comparator throws. *)
Fixpoint insert_or_throw {A : Type} (comparefn : A -> A -> Outcome (option Z))
    (x : A) (l : list A) : Outcome (list A) :=
  match l with
  | [] => Returns [x]
  | y :: rest =>
      (await v <- comparefn x y ;;
       if JsArray.answer v <=? 0 then Returns (x :: y :: rest)
       else await rest' <- insert_or_throw comparefn x rest ;;
            Returns (y :: rest'))%outcome
  end.

Fixpoint sort_or_throw {A : Type} (comparefn : A -> A -> Outcome (option Z))
    (l : list A) : Outcome (list A) :=
  match l with
  | [] => Returns []
  | x :: rest =>
      (await sorted <- sort_or_throw comparefn rest ;;
       insert_or_throw comparefn x sorted)%outcome
  end.

Module Page.

(** What reading a property of [undefined] throws (the wording is the
    engine's). *)
Definition TypeError_date : Thrown :=
  ErrorObject "Cannot read properties of undefined (reading 'date')".

(** [a.sessions[0].date[0]]: with no session, [a.sessions[0]] is
    [undefined] and reading [date] of it throws. *)
Definition leading_date (a : Event.t) : Outcome (option string) :=
  match Event.sessions a with
  | [] => Throws TypeError_date
  | s :: _ => Returns (hd_error (Session.date s))
  end.

(** The comparator given to [eventsList.sort]. *)
Definition by_leading_date (Date_parse : string -> option Z) (a b : Event.t)
  : Outcome (option Z) :=
  (await leadingA <- leading_date a ;;
   let dateA := Date_valueOf Date_parse leadingA in
   await leadingB <- leading_date b ;;
   let dateB := Date_valueOf Date_parse leadingB in
   Returns (subtract dateA dateB))%outcome.

(** [eventsList.sort(...)] of [fetchEvents]. *)
Definition sortEvents (Date_parse : string -> option Z) (eventsList : list Event.t)
  : Outcome (list Event.t) :=
  sort_or_throw (by_leading_date Date_parse) eventsList.

(** [useMemo] of [filterOptions]. *)
Record FilterOptions : Type := mkFilterOptions {
  categories : list string;
  locations : list string;
  tags : list string
}.

Definition add_all (xs : list string) (s : JsSet.t) : JsSet.t :=
  fold_left (fun s x => JsSet.add x s) xs s.

Definition filterOptions (events : list Event.t) : FilterOptions :=
  let categories := fold_left (fun s event => JsSet.add (Event.category event) s) events [] in
  let locations :=
    fold_left (fun s event => add_all (map Session.location (Event.sessions event)) s) events [] in
  let tags :=
    fold_left (fun s event =>
                 match Event.tags event with
                 | Some ts => add_all ts s
                 | None => s
                 end) events [] in
  mkFilterOptions (JsArray.sort compare_strings categories)
                  (JsArray.sort compare_strings locations)
                  (JsArray.sort compare_strings tags).

(** A filter of type [string | null] holds an event back when it is set
    to a string that is not empty and the event fails its test:
    [if (active && !test) return false]. *)
Definition holds_back (active : option string) (test : string -> bool) : bool :=
  match active with
  | Some value => negb (String.eqb value "") && negb (test value)
  | None => false
  end.

(** The callback of [events.filter] in [filteredEvents]. *)
Definition shown (activeCategory activeLocation activeTag : option string) (event : Event.t)
  : bool :=
  if holds_back activeCategory (String.eqb (Event.category event)) then false
  else if holds_back activeLocation
            (fun l => existsb (fun s => String.eqb (Session.location s) l) (Event.sessions event))
  then false
  else if holds_back activeTag
            (fun t => existsb (fun t' => String.eqb t' t)
                              (match Event.tags event with Some ts => ts | None => [] end))
  then false
  else true.

Definition filteredEvents (events : list Event.t)
    (activeCategory activeLocation activeTag : option string) : list Event.t :=
  filter (shown activeCategory activeLocation activeTag) events.

(** The date line of a card: [date[0] + (date[1] ? ` ~ ${date[1]}` : '')]
    of the first session.  With no session the read throws; with no
    date, [undefined] is turned into text with the rest. *)
Definition card_date (event : Event.t) : Outcome string :=
  match Event.sessions event with
  | [] => Throws TypeError_date
  | s :: _ =>
      let first := match nth_error (Session.date s) 0 with
                   | Some d => d
                   | None => "undefined"
                   end in
      let second := match nth_error (Session.date s) 1 with
                    | Some d => if String.eqb d "" then "" else " ~ " +:+ d
                    | None => ""
                    end in
      Returns (first +:+ second)
  end.

End Page.

(** ** The side panel *)

Module SidePanel.

(** [formatDate(dates)] *)
Definition formatDate (dates : list string) : string :=
  match dates with
  | [d] => d
  | [d1; d2] => d1 +:+ " ~ " +:+ d2
  | _ => join ", " dates
  end.

End SidePanel.

(* ===================================================================== *)
(** * Part II: the properties *)
(* ===================================================================== *)


(** ** Facts about [Map] *)

Section JsMapFacts.
Context {V : Type}.
Implicit Types (m : JsMap.t V) (k : string) (v : V).

Lemma keys_set_present k v m :
  In k (JsMap.keys m) -> JsMap.keys (JsMap.set k v m) = JsMap.keys m.
Proof.
  induction m as [|[k' v'] m IH]; simpl; intros Hin; [contradiction|].
  destruct (String.eqb_spec k' k) as [->|Hne]; simpl; [reflexivity|].
  f_equal. apply IH. destruct Hin; [contradiction|assumption].
Qed.

Lemma keys_set_absent k v m :
  ~ In k (JsMap.keys m) -> JsMap.keys (JsMap.set k v m) = JsMap.keys m ++ [k].
Proof.
  induction m as [|[k' v'] m IH]; simpl; intros Hnin; [reflexivity|].
  destruct (String.eqb_spec k' k) as [->|Hne]; simpl.
  - exfalso. apply Hnin. now left.
  - f_equal. apply IH. intros H. apply Hnin. now right.
Qed.

Lemma get_set_same k v m : JsMap.get k (JsMap.set k v m) = Some v.
Proof.
  induction m as [|[k' v'] m IH]; simpl.
  - now rewrite String.eqb_refl.
  - destruct (String.eqb_spec k' k) as [->|Hne]; simpl.
    + now rewrite String.eqb_refl.
    + destruct (String.eqb_spec k' k); [contradiction|exact IH].
Qed.

Lemma get_set_other k k0 v m :
  k0 <> k -> JsMap.get k (JsMap.set k0 v m) = JsMap.get k m.
Proof.
  intros Hne. induction m as [|[k' v'] m IH]; simpl.
  - destruct (String.eqb_spec k0 k); [contradiction|reflexivity].
  - destruct (String.eqb_spec k' k0) as [->|Hne']; simpl.
    + destruct (String.eqb_spec k0 k); [contradiction|reflexivity].
    + destruct (String.eqb_spec k' k); [reflexivity|exact IH].
Qed.

Lemma get_of_entry k v m :
  NoDup (JsMap.keys m) -> In (k, v) m -> JsMap.get k m = Some v.
Proof.
  induction m as [|[k' v'] m IH]; simpl; intros Hnd Hin; [contradiction|].
  inversion Hnd as [|? ? Hk' Hnd']; subst.
  destruct Hin as [Heq|Hin].
  - inversion Heq; subst. now rewrite String.eqb_refl.
  - destruct (String.eqb_spec k' k) as [->|Hne].
    + exfalso. apply Hk'. apply (in_map fst) in Hin. exact Hin.
    + now apply IH.
Qed.

End JsMapFacts.

Lemma filter_filter {A : Type} (p q : A -> bool) (l : list A) :
  filter p (filter q l) = filter (fun x => q x && p x) l.
Proof.
  induction l as [|a l IH]; simpl; [reflexivity|].
  destruct (q a); simpl; [destruct (p a)|]; now rewrite IH.
Qed.

Lemma existsb_eqb_In (y : string) (l : list string) :
  existsb (String.eqb y) l = true <-> In y l.
Proof.
  rewrite existsb_exists. split.
  - intros [x [Hx Heq]]. apply String.eqb_eq in Heq. now subst.
  - intros H. exists y. split; [assumption|apply String.eqb_refl].
Qed.

Lemma first_occurrences_In (x : string) (l : list string) :
  In x (first_occurrences l) <-> In x l.
Proof.
  induction l as [|a l IH]; simpl; [tauto|].
  rewrite filter_In, IH, negb_true_iff.
  destruct (String.eqb_spec x a) as [->|Hne]; split; intros H; auto.
  - destruct H as [H|[H _]]; auto.
  - destruct H as [H|H]; [now left|]. right. split; [assumption|reflexivity].
Qed.

Lemma first_occurrences_NoDup (l : list string) : NoDup (first_occurrences l).
Proof.
  induction l as [|a l IH]; simpl; constructor.
  - rewrite filter_In, String.eqb_refl. intros [_ H]. discriminate.
  - now apply NoDup_filter.
Qed.

Section OfEntries.
Context {V : Type}.

(** The keys of the map after a run of [set]s: the keys it had, then
    the new ones in the order in which they first came. *)
Lemma keys_fold_set (entries : list (string * V)) (m : JsMap.t V) :
  JsMap.keys (fold_left JsMap.set_entry entries m) =
  JsMap.keys m ++
    filter (fun y => negb (existsb (String.eqb y) (JsMap.keys m)))
           (first_occurrences (map fst entries)).
Proof.
  revert m. induction entries as [|[k v] entries IH]; intros m; simpl.
  - now rewrite app_nil_r.
  - rewrite IH. unfold JsMap.set_entry at 1 2; simpl.
    destruct (in_dec string_dec k (JsMap.keys m)) as [Hin|Hnin].
    + rewrite (keys_set_present k v m Hin). f_equal.
      assert (Hk : existsb (String.eqb k) (JsMap.keys m) = true)
        by now apply existsb_eqb_In.
      rewrite Hk; simpl. rewrite filter_filter. apply filter_ext_in.
      intros y _. destruct (String.eqb_spec y k) as [->|Hne]; simpl;
        [now rewrite Hk|reflexivity].
    + rewrite (keys_set_absent k v m Hnin), <- app_assoc; simpl. f_equal.
      assert (Hk : existsb (String.eqb k) (JsMap.keys m) = false).
      { destruct (existsb (String.eqb k) (JsMap.keys m)) eqn:E; [|reflexivity].
        apply existsb_eqb_In in E. contradiction. }
      rewrite Hk; simpl. f_equal. rewrite filter_filter. apply filter_ext.
      intros y. rewrite existsb_app; simpl. rewrite orb_false_r, negb_orb.
      apply andb_comm.
Qed.

(** A value read after a run of [set]s was put by the last [set] of its
    key, or was there before and no [set] touched its key. *)
Lemma get_fold_set (k : string) (v : V) (entries : list (string * V)) (m : JsMap.t V) :
  JsMap.get k (fold_left JsMap.set_entry entries m) = Some v ->
  (exists pre post, entries = pre ++ (k, v) :: post /\ ~ In k (map fst post)) \/
  (JsMap.get k m = Some v /\ ~ In k (map fst entries)).
Proof.
  revert m. induction entries as [|[k0 v0] entries IH]; intros m; simpl.
  - intros H. right. split; [assumption|tauto].
  - intros H. destruct (IH _ H) as [(pre & post & -> & Hpost)|[Hget Hnin]].
    + left. exists ((k0, v0) :: pre), post. split; [reflexivity|assumption].
    + unfold JsMap.set_entry in Hget; simpl in Hget.
      destruct (string_dec k0 k) as [->|Hne].
      * rewrite get_set_same in Hget. inversion Hget; subst.
        left. exists [], entries. split; [reflexivity|assumption].
      * rewrite get_set_other in Hget by assumption.
        right. split; [assumption|]. intros [Heq|Hin]; [now apply Hne|now apply Hnin].
Qed.

End OfEntries.

(** ** The deduplicator *)

Lemma map_fst_hit_entry (hits : list RawHit) :
  map fst (map hit_entry hits) = map url hits.
Proof. rewrite map_map. reflexivity. Qed.

Lemma uniqueResults_keys (hits : list RawHit) :
  JsMap.keys (JsMap.of_entries (map hit_entry hits)) = first_occurrences (map url hits).
Proof.
  unfold JsMap.of_entries. rewrite keys_fold_set, map_fst_hit_entry; simpl.
  induction (first_occurrences (map url hits)) as [|a l IH]; simpl; congruence.
Qed.

(** Every entry of the map is filed under the link of its hit. *)
Lemma uniqueResults_entry (hits : list RawHit) (k : string) (e : RawHit) :
  In (k, e) (JsMap.of_entries (map hit_entry hits)) ->
  k = url e /\
  exists pre post, hits = pre ++ e :: post /\ ~ In (url e) (map url post).
Proof.
  intros Hin.
  assert (Hnd : NoDup (JsMap.keys (JsMap.of_entries (map hit_entry hits)))).
  { rewrite uniqueResults_keys. apply first_occurrences_NoDup. }
  pose proof (get_of_entry k e _ Hnd Hin) as Hget.
  apply get_fold_set in Hget. destruct Hget as [(pre & post & Heq & Hpost)|[Hget _]];
    [|discriminate].
  apply map_eq_app in Heq. destruct Heq as (pre' & rest & -> & <- & Hrest).
  destruct rest as [|h post']; [discriminate|]. simpl in Hrest.
  inversion Hrest; subst. split; [reflexivity|].
  exists pre', post'. split; [reflexivity|]. now rewrite <- map_fst_hit_entry.
Qed.

Lemma uniqueResults_links (hits : list RawHit) :
  map url (uniqueResults hits) = first_occurrences (map url hits).
Proof.
  rewrite <- uniqueResults_keys. unfold uniqueResults, JsMap.values, JsMap.keys.
  rewrite map_map. apply map_ext_in.
  intros [k e] Hin. apply uniqueResults_entry in Hin. simpl. now destruct Hin as [-> _].
Qed.

Example first_occurrences_of_five :
  first_occurrences ["a"; "b"; "a"; "c"; "b"] = ["a"; "b"; "c"].
Proof. reflexivity. Qed.

(** A link that comes back keeps its first place and takes the fields of
    its last hit. *)
Example uniqueResults_of_three :
  uniqueResults [Sample.hit_tour_taipei; Sample.hit_expo; Sample.hit_tour_again] =
    [Sample.hit_tour_again; Sample.hit_expo].
Proof. vm_compute. reflexivity. Qed.

(** C1. Whatever raw hits come in, duplicates included, the deduplicator
    gives one entry for each distinct link and no more: the links of its
    output have no repeat and are the links of the input; and each entry
    is the last hit of the input that carries its link (the hit occurs in
    the input and no later hit has the same link). *)
Theorem dedup_one_entry_per_link_last_wins (hits : list RawHit) :
  NoDup (map url (uniqueResults hits)) /\
  (forall link, In link (map url (uniqueResults hits)) <-> In link (map url hits)) /\
  (forall e, In e (uniqueResults hits) <->
     exists pre post, hits = pre ++ e :: post /\ ~ In (url e) (map url post)).
Proof.
  rewrite uniqueResults_links. split; [apply first_occurrences_NoDup|].
  split; [intros link; apply first_occurrences_In|].
  intros e. split.
  - unfold uniqueResults, JsMap.values. intros Hin.
    apply in_map_iff in Hin. destruct Hin as ([k e'] & Heq & Hin). simpl in Heq. subst e'.
    now apply uniqueResults_entry in Hin.
  - intros (pre & post & -> & Hpost).
    assert (Hl : In (url e) (map url (uniqueResults (pre ++ e :: post)))).
    { rewrite uniqueResults_links, first_occurrences_In, map_app, in_app_iff. right. now left. }
    apply in_map_iff in Hl. destruct Hl as (e' & Hurl & Hin').
    assert (He' := Hin'). unfold uniqueResults, JsMap.values in He'.
    apply in_map_iff in He'. destruct He' as ([k e''] & Heq & Hin). simpl in Heq. subst e''.
    apply uniqueResults_entry in Hin. destruct Hin as (_ & pre' & post' & Hsplit & Hpost').
    enough (e' = e) by now subst.
    clear Hin'. rewrite Hurl in Hpost'.
    revert pre' Hsplit. induction pre as [|a pre IH]; intros pre' Hsplit.
    + destruct pre' as [|b pre']; simpl in Hsplit.
      * now inversion Hsplit.
      * inversion Hsplit; subst. exfalso. apply Hpost.
        rewrite map_app, in_app_iff. right. left. exact Hurl.
    + destruct pre' as [|b pre']; simpl in Hsplit.
      * inversion Hsplit; subst. exfalso. apply Hpost'.
        rewrite map_app, in_app_iff. right. now left.
      * inversion Hsplit; subst. now apply (IH pre').
Qed.

(** C10. The deduplicator lists its entries in the order in which their
    links first occur in the input, although each entry's fields are those
    of the link's last occurrence. *)
Theorem dedup_keeps_first_occurrence_order (hits : list RawHit) :
  map url (uniqueResults hits) = first_occurrences (map url hits).
Proof.
  unfold uniqueResults.
  rewrite <- uniqueResults_keys. unfold JsMap.values, JsMap.keys.
  rewrite map_map. apply map_ext_in.
  intros [k e] Hin. apply uniqueResults_entry in Hin. simpl. now destruct Hin as [-> _].
Qed.


(** ** The search collector *)

Lemma searchPromise_returns (tvly : TavilyClient) (searchString : string) (site : Site) :
  searchPromise tvly searchString site = Returns (source_results tvly searchString site).
Proof.
  unfold searchPromise, source_results, try_catch.
  now destruct (tvly (site_query searchString site) (site_options site)).
Qed.

Lemma Promise_all_returns {A : Type} (values : list A) :
  Promise_all (map Returns values) = Returns values.
Proof. induction values as [|a l IH]; simpl; [reflexivity|now rewrite IH]. Qed.

(** No rejection reaches [Promise.all]: the collector returns, with the
    results of every source put end to end. *)
Lemma allRawResults_returns (tvly : TavilyClient) (searchString : string) (sites : list Site) :
  allRawResults tvly searchString sites =
  Returns (flat (map (source_results tvly searchString) sites)).
Proof.
  unfold allRawResults.
  rewrite (map_ext _ _ (searchPromise_returns tvly searchString)).
  rewrite <- (map_map (source_results tvly searchString) Returns).
  now rewrite Promise_all_returns.
Qed.

(** C2. Whatever the configured sources are, when the search call of one
    of them throws, the run is not aborted: the collector returns, and the
    merged list is the results of the other sources put end to end, in
    the order of the sources, the failing source giving nothing.  The
    right-hand side is written with the list library's [flat_map] and
    [++] over [source_results], and with nothing of the collector. *)
Theorem single_source_failure_is_isolated
    (tvly : TavilyClient) (searchString : string)
    (before after : list Site) (failing : Site) (e : Thrown) :
  tvly (site_query searchString failing) (site_options failing) = Throws e ->
  allRawResults tvly searchString (before ++ failing :: after) =
  Returns (List.flat_map (source_results tvly searchString) before ++
           List.flat_map (source_results tvly searchString) after).
Proof.
  intros Hthrows. rewrite allRawResults_returns. f_equal.
  unfold flat. rewrite map_app, concat_app, !flat_map_concat_map. simpl.
  unfold source_results at 2. now rewrite Hthrows.
Qed.


(** ** Substrings *)

Lemma prefix_app (needle hay : string) :
  String.prefix needle hay = true <-> exists after, hay = needle +:+ after.
Proof.
  revert hay. induction needle as [|a needle IH]; intros hay; simpl.
  - destruct hay; split; eauto.
  - destruct hay as [|b hay]; simpl.
    + split; [discriminate|]. intros [after H]. discriminate.
    + destruct (ascii_dec a b) as [->|Hne].
      * rewrite IH. split; intros [after H]; exists after; [now subst|now inversion H].
      * split; [discriminate|]. intros [after H]. inversion H. congruence.
Qed.

Lemma includes_contains (hay needle : string) :
  includes hay needle = true <-> contains hay needle.
Proof.
  unfold contains. induction hay as [|c hay IH].
  - cbn [includes]. rewrite orb_false_r, prefix_app. split.
    + intros [after H]. exists EmptyString, after. exact H.
    + intros (before & after & H). destruct before; [now exists after|discriminate].
  - cbn [includes]. rewrite orb_true_iff, IH, prefix_app. split.
    + intros [[after H]|(before & after & H)].
      * exists EmptyString, after. exact H.
      * exists (String c before), after. simpl. now rewrite H.
    + intros (before & after & H). destruct before as [|c' before].
      * left. now exists after.
      * right. simpl in H. inversion H. now exists before, after.
Qed.

Lemma includes_false (hay needle : string) :
  includes hay needle = false <-> ~ contains hay needle.
Proof.
  rewrite <- includes_contains. destruct (includes hay needle); split; congruence.
Qed.

(** ** The sorter *)

Section InsertionSort.
Context {A : Type} (comparefn : A -> A -> option Z).

Lemma insert_permutation (x : A) (l : list A) :
  Permutation (x :: l) (JsArray.insert comparefn x l).
Proof.
  induction l as [|y l IH]; simpl; [reflexivity|].
  destruct (JsArray.answer (comparefn x y) <=? 0); [reflexivity|].
  rewrite perm_swap. now apply perm_skip.
Qed.

Lemma sort_permutation (l : list A) : Permutation l (JsArray.sort comparefn l).
Proof.
  induction l as [|x l IH]; simpl; [reflexivity|].
  rewrite <- insert_permutation. now apply perm_skip.
Qed.

(** When the comparator is the difference of a numeric key on the
    elements at hand, the sort puts them in the order of the key. *)
Variable key : A -> Z.
Local Abbreviation key_le := (fun a b : A => key a <= key b).

Lemma insert_sorted (x : A) (l : list A) :
  (forall y, In y l -> comparefn x y = Some (key x - key y)) ->
  StronglySorted key_le l ->
  StronglySorted key_le (JsArray.insert comparefn x l).
Proof.
  induction l as [|y l IH]; intros Hcmp Hsorted; simpl.
  - repeat constructor.
  - inversion Hsorted as [|? ? Hl Hy]; subst.
    rewrite (Hcmp y) by now left. simpl.
    destruct (Z.leb_spec (key x - key y) 0) as [Hle|Hgt].
    + constructor; [assumption|]. constructor; [lia|].
      eapply Forall_impl; [|exact Hy]. simpl. intros z Hz. lia.
    + constructor.
      * apply IH; [|assumption]. intros z Hz. apply Hcmp. now right.
      * eapply Permutation_Forall; [apply insert_permutation|].
        constructor; [lia|assumption].
Qed.

Lemma sort_sorted (l : list A) :
  (forall x y, In x l -> In y l -> comparefn x y = Some (key x - key y)) ->
  StronglySorted key_le (JsArray.sort comparefn l).
Proof.
  induction l as [|x l IH]; intros Hcmp; simpl; [constructor|].
  apply insert_sorted.
  - intros y Hy. apply Hcmp; [now left|]. right.
    eapply Permutation_in; [symmetry; apply sort_permutation|exact Hy].
  - apply IH. intros a b Ha Hb. apply Hcmp; now right.
Qed.

End InsertionSort.

Lemma StronglySorted_among {A : Type} (P : A -> Prop) (R1 R2 : A -> A -> Prop) (l : list A) :
  (forall a b, P a -> P b -> R1 a b -> R2 a b) ->
  Forall P l -> StronglySorted R1 l -> StronglySorted R2 l.
Proof.
  intros Himpl HP Hsorted. induction Hsorted as [|a l Hl IH Ha]; constructor.
  - apply IH. now inversion HP.
  - inversion HP as [|? ? Pa Pl]; subst.
    rewrite Forall_forall in *. intros b Hb. apply Himpl; auto.
Qed.

(** The sorter on events whose leading dates can all be read. *)
Lemma sort_by_leading_date_sorted (Date_parse : string -> option Z) (events : list Event.t) :
  Forall (has_leading_date Date_parse) events ->
  StronglySorted (leading_date_le Date_parse)
    (JsArray.sort (by_leading_date Date_parse) events).
Proof.
  intros Hdated.
  set (key := fun e => match Date_valueOf Date_parse (leading_date e) with
                       | Some t => t
                       | None => 0
                       end).
  apply (StronglySorted_among (has_leading_date Date_parse) (fun a b => key a <= key b)).
  - intros a b [ta Ha] [tb Hb]. unfold key, leading_date_le. now rewrite Ha, Hb.
  - eapply Permutation_Forall; [apply sort_permutation|exact Hdated].
  - apply sort_sorted. intros a b Ha Hb.
    rewrite Forall_forall in Hdated.
    destruct (Hdated a Ha) as [ta Hta]. destruct (Hdated b Hb) as [tb Htb].
    unfold by_leading_date, key. now rewrite Hta, Htb.
Qed.

(** ** The batch script *)

Lemma main_publishes_sorted_extraction
    (w : World) (googleAI : Provider) (tvly : TavilyClient) (object : EventsObject) :
  tavily w (Some "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") = Returns tvly ->
  script_extraction w googleAI tvly = Returns object ->
  main w googleAI = Returns (JsArray.sort (by_leading_date (Date_parse w)) (events object)).
Proof. intros Hclient Hextract. unfold main. rewrite Hclient. simpl. now rewrite Hextract. Qed.

(** C3, as amended. When every event the extraction gives back has a
    leading date, [sessions[0].date[0]], that can be read as a date, the
    batch run publishes the events sorted ascending by that date: the
    output of the sorter is in calendar order of the leading dates. *)
Theorem published_events_sorted_by_leading_date
    (w : World) (googleAI : Provider) (tvly : TavilyClient) (object : EventsObject) :
  tavily w (Some "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") = Returns tvly ->
  script_extraction w googleAI tvly = Returns object ->
  Forall (has_leading_date (Date_parse w)) (events object) ->
  exists published,
    main w googleAI = Returns published /\
    published = JsArray.sort (by_leading_date (Date_parse w)) (events object) /\
    StronglySorted (leading_date_le (Date_parse w)) published.
Proof.
  intros Hclient Hextract Hdated.
  exists (JsArray.sort (by_leading_date (Date_parse w)) (events object)).
  split; [now apply (main_publishes_sorted_extraction w googleAI tvly)|].
  split; [reflexivity|]. now apply sort_by_leading_date_sorted.
Qed.

Lemma published_events_sorted_by_leading_date_witness :
  exists published,
    main Sample.dated_world Sample.dated_provider = Returns published /\
    published =
      JsArray.sort (by_leading_date Sample.Date_parse) [Sample.late; Sample.early; Sample.middle] /\
    StronglySorted (leading_date_le Sample.Date_parse) published.
Proof.
  apply (published_events_sorted_by_leading_date Sample.dated_world Sample.dated_provider
           Sample.client (mkEventsObject [Sample.late; Sample.early; Sample.middle])).
  - reflexivity.
  - vm_compute. reflexivity.
  - repeat constructor; eexists; vm_compute; reflexivity.
Defined.

(** C3, as stated, fails when a leading date is missing: the model
    answers with an event whose session has an empty [date] array, placed
    between an event of 2 March 2026 and one of 1 March 2026.  The
    comparator answers [NaN] whenever the undated event is one of the two
    compared, the sort moves nothing, and the batch run publishes the
    event of 2 March before the event of 1 March. *)
Lemma missing_leading_date_breaks_the_order :
  fetch_events Sample.undated_world =
    Returns [Sample.middle; Sample.undated; Sample.early] /\
  Date_valueOf Sample.Date_parse (leading_date Sample.middle) = Some 1772409600000 /\
  Date_valueOf Sample.Date_parse (leading_date Sample.undated) = None /\
  Date_valueOf Sample.Date_parse (leading_date Sample.early) = Some 1772323200000 /\
  ~ Sorted (leading_date_le Sample.Date_parse)
      [Sample.middle; Sample.undated; Sample.early].
Proof.
  split; [vm_compute; reflexivity|].
  split; [vm_compute; reflexivity|].
  split; [vm_compute; reflexivity|].
  split; [vm_compute; reflexivity|].
  intros Hsorted. inversion Hsorted as [|? ? _ Hhd]; subst.
  inversion Hhd as [|? ? Hle]; subst. exact Hle.
Qed.

(** C7. Whenever the extraction of the batch run gives back an object,
    the run publishes a reordering of its events, with none added, dropped
    or changed on the way; and whenever the extraction of the route
    handler gives back an object, the handler answers with that very
    object.  Neither filters by the date window or by missing dates.  The
    two halves stand apart: each holds in every world, under the
    hypotheses of its own program only. *)
Theorem published_is_a_permutation_of_extracted :
  (forall (w : World) (googleAI : Provider) (tvly : TavilyClient) (object : EventsObject),
     tavily w (Some "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") = Returns tvly ->
     script_extraction w googleAI tvly = Returns object ->
     exists published,
       main w googleAI = Returns published /\ Permutation (events object) published) /\
  (forall (w : World) (req : Request) (body : Json) (prompt : option Json)
          (tvly : TavilyClient) (object : EventsObject),
     req_json req = Returns body ->
     destructure_prompt body = Returns prompt ->
     tavily w (env w !! "TAVILY_API_KEY") = Returns tvly ->
     route_extraction w tvly = Returns object ->
     POST w req = mkResponse 200 (EventsBody object)).
Proof.
  split.
  - intros w googleAI tvly object Hclient Hextract.
    exists (JsArray.sort (by_leading_date (Date_parse w)) (events object)).
    split; [now apply (main_publishes_sorted_extraction w googleAI tvly)|].
    apply sort_permutation.
  - intros w req body prompt tvly object Hbody Hprompt Hclient Hextract.
    unfold POST, POST_try. rewrite Hbody. simpl. rewrite Hprompt. simpl.
    rewrite Hclient. simpl. now rewrite Hextract.
Qed.

(** The batch half in a world whose environment has no search key, where
    the handler cannot build its client, on an answer with an undated
    event; the handler half in a world with both keys. *)
Lemma published_is_a_permutation_of_extracted_witness :
  (exists published,
     main Sample.no_search_key_world (fun _ _ => Returns Sample.undated_answer) =
       Returns published /\
     Permutation [Sample.middle; Sample.undated; Sample.early] published) /\
  POST Sample.undated_world (Sample.request "concerts in March") =
    mkResponse 200 (EventsBody (mkEventsObject [Sample.middle; Sample.undated; Sample.early])).
Proof.
  split.
  - apply (proj1 published_is_a_permutation_of_extracted Sample.no_search_key_world
             (fun _ _ => Returns Sample.undated_answer) Sample.client
             (mkEventsObject [Sample.middle; Sample.undated; Sample.early]));
      vm_compute; reflexivity.
  - apply (proj2 published_is_a_permutation_of_extracted Sample.undated_world
             (Sample.request "concerts in March")
             (JObject [("prompt", JString "concerts in March")])
             (Some (JString "concerts in March"))
             Sample.client
             (mkEventsObject [Sample.middle; Sample.undated; Sample.early]));
      vm_compute; reflexivity.
Defined.

(** ** The schema *)

Lemma parse_items_strings (items : list Json) (l : list string) :
  Zod.parse_items Zod.string_ items = Some l <-> items = map JString l.
Proof.
  revert l. induction items as [|v items IH]; intros l; simpl.
  - split; [intros H; inversion H; reflexivity|].
    destruct l; [reflexivity|discriminate].
  - destruct v; simpl; try (split; [discriminate|destruct l; discriminate]).
    destruct (Zod.parse_items Zod.string_ items) as [l'|] eqn:E.
    + split.
      * intros H. inversion H; subst. simpl. f_equal. now apply IH.
      * destruct l as [|s' l]; [discriminate|]. simpl. intros H.
        injection H as Hs Hitems. subst s'. apply IH in Hitems. congruence.
    + split; [discriminate|].
      destruct l as [|s' l]; [discriminate|]. simpl. intros H.
      injection H as Hs Hitems. apply IH in Hitems. discriminate.
Qed.

Lemma required_string (key : string) (fields : list (string * Json)) (s : string) :
  Zod.required Zod.string_ key fields = Some s <-> property key fields = Some (JString s).
Proof.
  unfold Zod.required. destruct (property key fields) as [[]|]; simpl;
    split; intros H; inversion H; reflexivity.
Qed.

Lemma required_strings (key : string) (fields : list (string * Json)) (l : list string) :
  Zod.required (Zod.array Zod.string_) key fields = Some l <->
  property key fields = Some (JArray (map JString l)).
Proof.
  unfold Zod.required. destruct (property key fields) as [[]|]; simpl;
    try (split; intros H; inversion H; fail).
  rewrite parse_items_strings. split; intros H; [now subst|now inversion H].
Qed.

(** C5, as amended. Schema validation takes a session whose [date] is an
    array of strings of any length, 0 and 3 elements as well as 1 and 2:
    an object is taken as a session exactly when [location] and [url] are
    strings and [date] is an array of strings, with no condition on how
    many.  The length of 1 or 2 is asked of the language model in the
    prompt and held by no code. *)
Theorem session_schema_takes_any_number_of_dates :
  (forall (location : string) (date : list string) (url : string),
     SessionSchema (session_json location date url) = Some (Session.mk location date url)) /\
  (forall (fields : list (string * Json)) (s : Session.t),
     SessionSchema (JObject fields) = Some s <->
     property "location" fields = Some (JString (Session.location s)) /\
     property "date" fields = Some (JArray (map JString (Session.date s))) /\
     property "url" fields = Some (JString (Session.url s))).
Proof.
  assert (Hchar : forall fields s,
     SessionSchema (JObject fields) = Some s <->
     property "location" fields = Some (JString (Session.location s)) /\
     property "date" fields = Some (JArray (map JString (Session.date s))) /\
     property "url" fields = Some (JString (Session.url s))).
  { intros fields [location date url]. simpl.
    rewrite <- required_string, <- required_strings, <- required_string.
    unfold SessionSchema, Zod.object.
    destruct (Zod.required Zod.string_ "location" fields) as [l|]; simpl;
      [|split; [discriminate|intros [H _]; discriminate]].
    destruct (Zod.required (Zod.array Zod.string_) "date" fields) as [d|]; simpl;
      [|split; [discriminate|intros (_ & H & _); discriminate]].
    destruct (Zod.required Zod.string_ "url" fields) as [u|]; simpl;
      [|split; [discriminate|intros (_ & _ & H); discriminate]].
    split.
    - intros H. inversion H. auto.
    - intros (H1 & H2 & H3). congruence. }
  split; [|exact Hchar].
  intros location date url. apply Hchar. simpl. auto.
Qed.

(** C5, as stated, fails: the schema takes a session with no date and a
    session with three dates, and a batch run in which the model answers
    with a session that has no date publishes it. *)
Lemma session_schema_takes_zero_and_three_dates :
  SessionSchema (session_json "Zepp" [] "https://kktix.com/u") =
    Some (Session.mk "Zepp" [] "https://kktix.com/u") /\
  SessionSchema (session_json "Zepp" ["2026-03-01"; "2026-03-02"; "2026-03-03"]
                              "https://kktix.com/u") =
    Some (Session.mk "Zepp" ["2026-03-01"; "2026-03-02"; "2026-03-03"] "https://kktix.com/u") /\
  fetch_events Sample.undated_world =
    Returns [Sample.middle; Sample.undated; Sample.early] /\
  map Session.date (Event.sessions Sample.undated) = [[]].
Proof.
  split; [vm_compute; reflexivity|].
  split; [vm_compute; reflexivity|].
  split; [vm_compute; reflexivity|].
  reflexivity.
Qed.

Lemma single_source_failure_is_isolated_witness :
  allRawResults Sample.client "x"
    ([mkSite "KKTIX" "kktix.com"] ++ mkSite "寬宏" "kham.com.tw" ::
     [mkSite "年代" "ticket.com.tw"; mkSite "iNDIEVOX" "indievox.com"]) =
  Returns ([Sample.hit_tour_taipei; Sample.hit_expo] ++ [Sample.hit_tour_again]).
Proof.
  apply (single_source_failure_is_isolated Sample.client "x"
           [mkSite "KKTIX" "kktix.com"]
           [mkSite "年代" "ticket.com.tw"; mkSite "iNDIEVOX" "indievox.com"]
           (mkSite "寬宏" "kham.com.tw") (ErrorObject "fetch failed")).
  vm_compute. reflexivity.
Defined.

(** ** The route handler *)

Lemma POST_when_extraction_throws
    (w : World) (req : Request) (body : Json) (prompt : option Json)
    (tvly : TavilyClient) (error : Thrown) :
  req_json req = Returns body ->
  destructure_prompt body = Returns prompt ->
  tavily w (env w !! "TAVILY_API_KEY") = Returns tvly ->
  route_extraction w tvly = Throws error ->
  POST w req = POST_catch error.
Proof.
  intros Hbody Hprompt Hclient Hextract. unfold POST, POST_try.
  rewrite Hbody. simpl. rewrite Hprompt. simpl. rewrite Hclient. simpl.
  now rewrite Hextract.
Qed.

(** C4, as amended. When the extraction call of an on-demand request
    throws, the response has status 429 and error code [QUOTA_EXCEEDED]
    if the message of the error contains "quota", "429" or "exceeded",
    and status 500 and error code [INTERNAL_ERROR] if it contains none of
    the three. *)
Theorem on_demand_error_response
    (w : World) (req : Request) (body : Json) (prompt : option Json)
    (tvly : TavilyClient) (error : Thrown) :
  req_json req = Returns body ->
  destructure_prompt body = Returns prompt ->
  tavily w (env w !! "TAVILY_API_KEY") = Returns tvly ->
  route_extraction w tvly = Throws error ->
  (contains (message_of error) "quota" \/ contains (message_of error) "429" \/
   contains (message_of error) "exceeded" ->
   POST w req =
     mkResponse 429 (ErrorBody "QUOTA_EXCEEDED" "API 額度已用完，請稍後再試或更換 API Key。")) /\
  (~ (contains (message_of error) "quota" \/ contains (message_of error) "429" \/
      contains (message_of error) "exceeded") ->
   POST w req =
     mkResponse 500 (ErrorBody "INTERNAL_ERROR" ("伺服器錯誤：" +:+ message_of error))).
Proof.
  intros Hbody Hprompt Hclient Hextract.
  rewrite (POST_when_extraction_throws w req body prompt tvly error) by assumption.
  unfold POST_catch. rewrite <- !includes_contains.
  destruct (includes (message_of error) "quota");
    destruct (includes (message_of error) "429");
    destruct (includes (message_of error) "exceeded"); simpl;
    split; intros H; try reflexivity; try (exfalso; tauto);
    try (exfalso; apply H; tauto);
    destruct H as [H|[H|H]]; discriminate.
Qed.

Lemma on_demand_error_response_witness :
  (contains "429 Too Many Requests" "quota" \/ contains "429 Too Many Requests" "429" \/
   contains "429 Too Many Requests" "exceeded" ->
   POST Sample.quota_world (Sample.request "concerts") =
     mkResponse 429 (ErrorBody "QUOTA_EXCEEDED" "API 額度已用完，請稍後再試或更換 API Key。")) /\
  (~ (contains "429 Too Many Requests" "quota" \/ contains "429 Too Many Requests" "429" \/
      contains "429 Too Many Requests" "exceeded") ->
   POST Sample.quota_world (Sample.request "concerts") =
     mkResponse 500 (ErrorBody "INTERNAL_ERROR" ("伺服器錯誤：" +:+ "429 Too Many Requests"))).
Proof.
  apply (on_demand_error_response Sample.quota_world (Sample.request "concerts")
           (JObject [("prompt", JString "concerts")]) (Some (JString "concerts"))
           Sample.client (ErrorObject "429 Too Many Requests"));
    vm_compute; reflexivity.
Defined.

(** C4, as stated, fails on an error whose message has "exceeded" in it
    and neither "429" nor "quota": the extraction throws "Deadline
    exceeded" and the response is 429 [QUOTA_EXCEEDED], not 500
    [INTERNAL_ERROR]. *)
Lemma exceeded_is_answered_as_quota :
  route_extraction Sample.exceeded_world Sample.client =
    Throws (ErrorObject "Deadline exceeded") /\
  ~ contains "Deadline exceeded" "429" /\
  ~ contains "Deadline exceeded" "quota" /\
  POST Sample.exceeded_world (Sample.request "concerts") =
    mkResponse 429 (ErrorBody "QUOTA_EXCEEDED" "API 額度已用完，請稍後再試或更換 API Key。").
Proof.
  split; [vm_compute; reflexivity|].
  split; [apply includes_false; vm_compute; reflexivity|].
  split; [apply includes_false; vm_compute; reflexivity|].
  vm_compute. reflexivity.
Qed.

(** The handler reads nothing of the body it destructures. *)
Lemma POST_try_ignores_body (w : World) (body1 body2 : Json) (prompt1 prompt2 : option Json) :
  destructure_prompt body1 = Returns prompt1 ->
  destructure_prompt body2 = Returns prompt2 ->
  POST_try w (mkRequest (Returns body1)) = POST_try w (mkRequest (Returns body2)).
Proof.
  intros H1 H2. unfold POST_try. simpl. rewrite H1, H2. reflexivity.
Qed.

(** C8. Two on-demand requests whose bodies differ in the [prompt] field
    only get the same response from the same collaborators: the window
    and the keywords come from the server's clock, and the caller's
    prompt reaches neither the searches nor the extraction nor the
    response.  (The collaborators are arbitrary functions of the queries
    and of the extraction prompt they are given, so a prompt that showed
    in either would show in the response of some world.) *)
Theorem caller_prompt_does_not_reach_the_response
    (w : World) (fields1 fields2 : list (string * Json)) :
  (forall key, key <> "prompt" -> property key fields1 = property key fields2) ->
  POST_try w (mkRequest (Returns (JObject fields1))) =
    POST_try w (mkRequest (Returns (JObject fields2))) /\
  POST w (mkRequest (Returns (JObject fields1))) =
    POST w (mkRequest (Returns (JObject fields2))).
Proof.
  intros _.
  assert (Htry : POST_try w (mkRequest (Returns (JObject fields1))) =
                 POST_try w (mkRequest (Returns (JObject fields2))))
    by (eapply POST_try_ignores_body; reflexivity).
  split; [exact Htry|]. unfold POST. now rewrite Htry.
Qed.

Lemma caller_prompt_does_not_reach_the_response_witness :
  POST_try Sample.dated_world
      (mkRequest (Returns (JObject [("prompt", JString "concerts"); ("lang", JString "zh")]))) =
    POST_try Sample.dated_world
      (mkRequest (Returns (JObject [("lang", JString "zh"); ("prompt", JString "quota 429")]))) /\
  POST Sample.dated_world
      (mkRequest (Returns (JObject [("prompt", JString "concerts"); ("lang", JString "zh")]))) =
    POST Sample.dated_world
      (mkRequest (Returns (JObject [("lang", JString "zh"); ("prompt", JString "quota 429")]))).
Proof.
  apply (caller_prompt_does_not_reach_the_response Sample.dated_world).
  intros key Hkey. cbn [property].
  destruct (String.eqb_spec "prompt" key) as [Heq|_]; [congruence|].
  destruct (String.eqb "lang" key); reflexivity.
Defined.

(** ** The query planner *)

Example formatDate_pads_month_and_day :
  formatDate (JsDate.mk 2026 1 3) = "2026/02/03".
Proof. vm_compute. reflexivity. Qed.

Example planner_on_an_ordinary_day :
  getDynamicDateParams (JsDate.mk 2026 10 3) =
    mkDateParams "2026/11/03" "2027/01/03"
      (quoted "2026 11月" +:+ " OR " +:+ quoted "2026 12月" +:+ " OR " +:+ quoted "2027 1月").
Proof. vm_compute. reflexivity. Qed.

(** The two calendar conversions undo each other on the days 1 to 28 of
    every month of the 400 years of an era: a table, checked by running
    the conversions. *)
Lemma era_table :
  forallb (fun yoe =>
    forallb (fun m =>
      forallb (fun d =>
        let doe := JsDate.day_of_era yoe m d in
        (0 <=? doe) && (doe <? 146097) &&
        let '(yoe', m', d') := JsDate.civil_of_day_of_era doe in
        (yoe' =? yoe) && (m' =? m) && (d' =? d))
        (range 1 28))
      (range 1 12))
    (range 0 400) = true.
Proof. vm_compute. reflexivity. Qed.

Lemma in_range (lo : Z) (n : nat) (x : Z) :
  lo <= x < lo + Z.of_nat n -> In x (range lo n).
Proof.
  intros H. unfold range. apply in_map_iff. exists (Z.to_nat (x - lo)).
  split; [lia|]. apply in_seq. lia.
Qed.

Lemma day_of_era_inverse (yoe m d : Z) :
  0 <= yoe < 400 -> 1 <= m <= 12 -> 1 <= d <= 28 ->
  0 <= JsDate.day_of_era yoe m d < 146097 /\
  JsDate.civil_of_day_of_era (JsDate.day_of_era yoe m d) = (yoe, m, d).
Proof.
  intros Hyoe Hm Hd. pose proof era_table as Htable.
  rewrite forallb_forall in Htable. specialize (Htable yoe (in_range 0 400 yoe ltac:(lia))).
  rewrite forallb_forall in Htable. specialize (Htable m (in_range 1 12 m ltac:(lia))).
  rewrite forallb_forall in Htable. specialize (Htable d (in_range 1 28 d ltac:(lia))).
  cbv zeta in Htable.
  destruct (JsDate.civil_of_day_of_era (JsDate.day_of_era yoe m d)) as [[yoe' m'] d'].
  rewrite !andb_true_iff in Htable.
  destruct Htable as [[Hlo Hhi] [[Hy' Hm'] Hd']].
  split; [lia|]. f_equal; [f_equal|]; lia.
Qed.

(** A day of the calendar, up to the 28th, comes back from its day
    number. *)
Lemma civil_from_days_inverse (y m d : Z) :
  1 <= m <= 12 -> 1 <= d <= 28 ->
  JsDate.civil_from_days (JsDate.days_from_civil y m d) = (y, m, d).
Proof.
  intros Hm Hd. unfold JsDate.civil_from_days, JsDate.days_from_civil. cbv zeta.
  set (y' := if m <=? 2 then y - 1 else y).
  set (era := y' / 400). set (yoe := y' - era * 400).
  assert (Hyoe : 0 <= yoe < 400).
  { unfold yoe, era. pose proof (Z.mod_pos_bound y' 400). rewrite Z.mod_eq in H; lia. }
  destruct (day_of_era_inverse yoe m d Hyoe Hm Hd) as [Hdoe Hcivil].
  set (doe := JsDate.day_of_era yoe m d) in *.
  replace (era * 146097 + doe - 719468 + 719468) with (doe + era * 146097) by lia.
  rewrite Z.div_add by lia. rewrite (Z.div_small doe) by lia.
  replace (doe + era * 146097 - (0 + era) * 146097) with doe by lia.
  replace (0 + era) with era by lia.
  rewrite Hcivil. f_equal. f_equal.
  unfold yoe, y'. destruct (m <=? 2); lia.
Qed.

(** Up to the 28th, [setMonth] lands on the same day of the month asked
    for, the months past December carried into the year. *)
Lemma setMonth_up_to_the_28th (now : JsDate.t) (month : Z) :
  1 <= JsDate.getDate now <= 28 ->
  JsDate.setMonth now month =
    JsDate.mk (JsDate.getFullYear now + month / 12) (month mod 12) (JsDate.getDate now).
Proof.
  intros Hd. unfold JsDate.setMonth, JsDate.of_day, JsDate.MakeDay. cbv zeta.
  pose proof (Z.mod_pos_bound month 12) as Hmod.
  replace (JsDate.days_from_civil (JsDate.getFullYear now + month / 12) (month mod 12 + 1) 1
           + JsDate.getDate now - 1)
    with (JsDate.days_from_civil (JsDate.getFullYear now + month / 12) (month mod 12 + 1)
            (JsDate.getDate now))
    by (unfold JsDate.days_from_civil, JsDate.day_of_era; lia).
  rewrite civil_from_days_inverse by lia. f_equal. lia.
Qed.

(** X4. On the days 1 to 28 of a month the planner does what the
    specification asks: the window runs from today to the same day two
    months on, and the keyword string names the current month and the two
    that follow. *)
Lemma planner_up_to_the_28th (now : JsDate.t) :
  1 <= JsDate.getDate now <= 28 ->
  startDate (getDynamicDateParams now) = formatDate now /\
  endDate (getDynamicDateParams now) =
    formatDate (JsDate.mk (JsDate.getFullYear now + (JsDate.getMonth now + 2) / 12)
                          ((JsDate.getMonth now + 2) mod 12) (JsDate.getDate now)) /\
  searchString (getDynamicDateParams now) = spec_searchString now.
Proof.
  intros Hd. unfold getDynamicDateParams, spec_searchString. cbn [startDate endDate searchString].
  split; [reflexivity|]. split.
  - now rewrite setMonth_up_to_the_28th.
  - f_equal. apply map_ext. intros i.
    unfold monthKeyword, spec_monthKeyword, calendar_month_after.
    now rewrite setMonth_up_to_the_28th.
Qed.

(** C6, on the code: on 31 January 2026 the planner gives the window
    2026/01/31 to 2026/03/31, and a keyword string of three terms that
    names January and twice March, where the current and the next two
    calendar months are January, February and March.  [setMonth] keeps
    the day of the month, so 31 January moved to February is 31 February,
    which the calendar reads as 3 March. *)
Theorem planner_skips_february_on_31_january :
  getDynamicDateParams (JsDate.mk 2026 0 31) =
    mkDateParams "2026/01/31" "2026/03/31"
      (quoted "2026 1月" +:+ " OR " +:+ quoted "2026 3月" +:+ " OR " +:+ quoted "2026 3月") /\
  spec_searchString (JsDate.mk 2026 0 31) =
    quoted "2026 1月" +:+ " OR " +:+ quoted "2026 2月" +:+ " OR " +:+ quoted "2026 3月" /\
  JsDate.setMonth (JsDate.mk 2026 0 31) 1 = JsDate.mk 2026 2 3.
Proof.
  split; [vm_compute; reflexivity|].
  split; vm_compute; reflexivity.
Qed.

(** ** The keys *)

Lemma fetch_events_with_env (w : World) (e : gmap string string) :
  e !! "GOOGLE_GENERATIVE_AI_API_KEY" = env w !! "GOOGLE_GENERATIVE_AI_API_KEY" ->
  fetch_events (with_env w e) = fetch_events w.
Proof. intros Hkey. unfold fetch_events. simpl. rewrite Hkey. reflexivity. Qed.

(** C9, on the code: the batch script gives the search client a key
    written in the source and does not read [TAVILY_API_KEY].  Taking the
    variable out of the environment changes nothing to a batch run; and
    in a world with no search key in the environment, whose vendor
    constructors throw when they are given no key, the batch run goes
    through and publishes, while the route handler, which does read the
    variable, answers that request with status 500. *)
Theorem batch_search_key_is_not_read_from_the_environment :
  (forall w : World,
     fetch_events (with_env w (delete "TAVILY_API_KEY" (env w))) = fetch_events w) /\
  env Sample.no_search_key_world !! "TAVILY_API_KEY" = None /\
  fetch_events Sample.no_search_key_world =
    Returns [Sample.early; Sample.middle; Sample.late] /\
  POST Sample.no_search_key_world (Sample.request "concerts") =
    mkResponse 500 (ErrorBody "INTERNAL_ERROR" ("伺服器錯誤：" +:+ "No API key provided.")).
Proof.
  split.
  { intros w. apply fetch_events_with_env. now apply lookup_delete_ne. }
  split; [reflexivity|].
  split; vm_compute; reflexivity.
Qed.

(** ** More on the deduplicator *)

Lemma set_absent {V : Type} (k : string) (v : V) (m : JsMap.t V) :
  ~ In k (JsMap.keys m) -> JsMap.set k v m = m ++ [(k, v)].
Proof.
  induction m as [|[k' v'] m IH]; simpl; intros Hnin; [reflexivity|].
  destruct (String.eqb_spec k' k) as [->|Hne].
  - exfalso. apply Hnin. now left.
  - f_equal. apply IH. intros H. apply Hnin. now right.
Qed.

Lemma fold_set_fresh {V : Type} (entries : list (string * V)) (m : JsMap.t V) :
  NoDup (JsMap.keys m ++ map fst entries) ->
  fold_left JsMap.set_entry entries m = m ++ entries.
Proof.
  revert m. induction entries as [|[k v] entries IH]; intros m Hnd; simpl.
  - now rewrite app_nil_r.
  - assert (Hfresh : ~ In k (JsMap.keys m)).
    { intros Hin. simpl in Hnd. apply NoDup_remove_2 in Hnd. apply Hnd.
      apply in_or_app. now left. }
    unfold JsMap.set_entry at 2. simpl. rewrite (set_absent k v m Hfresh).
    rewrite IH.
    + now rewrite <- app_assoc.
    + unfold JsMap.keys in *. rewrite map_app. simpl. rewrite <- app_assoc. exact Hnd.
Qed.

(** Hits with distinct links come out as they went in. *)
Lemma uniqueResults_distinct (hits : list RawHit) :
  NoDup (map url hits) -> uniqueResults hits = hits.
Proof.
  intros Hnd. unfold uniqueResults, JsMap.of_entries.
  rewrite fold_set_fresh.
  - simpl. unfold JsMap.values. rewrite map_map. simpl. apply map_id.
  - simpl. now rewrite map_fst_hit_entry.
Qed.

Lemma first_occurrences_length (links : list string) :
  (length (first_occurrences links) <= length links)%nat.
Proof.
  induction links as [|x links IH]; simpl; [lia|].
  pose proof (filter_length_le (fun y => negb (String.eqb y x)) (first_occurrences links)).
  lia.
Qed.

(** X1. Deduplicating twice is deduplicating once. *)
Theorem dedup_is_idempotent (hits : list RawHit) :
  uniqueResults (uniqueResults hits) = uniqueResults hits.
Proof.
  apply uniqueResults_distinct. rewrite uniqueResults_links.
  apply first_occurrences_NoDup.
Qed.

(** X2. The deduplicator gives back its input unchanged exactly when no
    two hits of the input share a link. *)
Theorem dedup_changes_nothing_iff_links_distinct (hits : list RawHit) :
  uniqueResults hits = hits <-> NoDup (map url hits).
Proof.
  split.
  - intros Heq. rewrite <- Heq, uniqueResults_links. apply first_occurrences_NoDup.
  - apply uniqueResults_distinct.
Qed.

(** X3. The deduplicator never gives more hits than it was given. *)
Theorem dedup_never_longer (hits : list RawHit) :
  (length (uniqueResults hits) <= length hits)%nat.
Proof.
  rewrite <- (length_map url (uniqueResults hits)), uniqueResults_links.
  rewrite <- (length_map url hits). apply first_occurrences_length.
Qed.

(** ** More on the query planner *)

Lemma planner_up_to_the_28th_witness :
  startDate (getDynamicDateParams (JsDate.mk 2026 10 3)) = formatDate (JsDate.mk 2026 10 3) /\
  endDate (getDynamicDateParams (JsDate.mk 2026 10 3)) =
    formatDate (JsDate.mk (2026 + (10 + 2) / 12) ((10 + 2) mod 12) 3) /\
  searchString (getDynamicDateParams (JsDate.mk 2026 10 3)) =
    spec_searchString (JsDate.mk 2026 10 3).
Proof. apply (planner_up_to_the_28th (JsDate.mk 2026 10 3)). simpl. lia. Defined.

(** The years of four digits print as four digits that read back as the
    year: a table, checked by running the printer. *)
Lemma four_digit_years :
  forallb (fun y =>
    let s := String_of_number y in
    (String.length s =? 4)%nat &&
    match Sample.digits s 0 with Some y' => y' =? y | None => false end)
    (range 1000 (Z.to_nat 9000)) = true.
Proof. vm_compute. reflexivity. Qed.

(** The numbers 1 to 31, padded to two characters, are two digits that
    read back as the number. *)
Lemma two_digit_fields :
  forallb (fun n =>
    let s := padStart 2 "0"%char (String_of_number n) in
    (String.length s =? 2)%nat &&
    match Sample.digits s 0 with Some n' => n' =? n | None => false end)
    (range 1 31) = true.
Proof. vm_compute. reflexivity. Qed.

(** X5. For a date in a year of four digits, [formatDate] gives the ten
    characters YYYY/MM/DD: four digits that read as the year, a slash, two
    digits that read as the month counted from 1, a slash, and two digits
    that read as the day, a zero filling a month or a day below 10. *)
Theorem formatDate_is_YYYY_MM_DD (date : JsDate.t) :
  1000 <= JsDate.getFullYear date <= 9999 ->
  0 <= JsDate.getMonth date <= 11 ->
  1 <= JsDate.getDate date <= 31 ->
  exists yyyy mm dd,
    formatDate date = yyyy +:+ "/" +:+ mm +:+ "/" +:+ dd /\
    String.length yyyy = 4%nat /\ Sample.digits yyyy 0 = Some (JsDate.getFullYear date) /\
    String.length mm = 2%nat /\ Sample.digits mm 0 = Some (JsDate.getMonth date + 1) /\
    String.length dd = 2%nat /\ Sample.digits dd 0 = Some (JsDate.getDate date).
Proof.
  intros Hy Hm Hd.
  exists (String_of_number (JsDate.getFullYear date)),
         (padStart 2 "0"%char (String_of_number (JsDate.getMonth date + 1))),
         (padStart 2 "0"%char (String_of_number (JsDate.getDate date))).
  split; [reflexivity|].
  pose proof four_digit_years as Hyears. rewrite forallb_forall in Hyears.
  specialize (Hyears (JsDate.getFullYear date) (in_range 1000 (Z.to_nat 9000) (JsDate.getFullYear date) ltac:(lia))).
  pose proof two_digit_fields as Hfields. rewrite forallb_forall in Hfields.
  pose proof (Hfields (JsDate.getMonth date + 1) (in_range 1 31 (JsDate.getMonth date + 1) ltac:(lia))) as Hmonth.
  pose proof (Hfields (JsDate.getDate date) (in_range 1 31 (JsDate.getDate date) ltac:(lia))) as Hday.
  cbv zeta in Hyears, Hmonth, Hday.
  apply andb_true_iff in Hyears, Hmonth, Hday.
  destruct Hyears as [Hy1 Hy2], Hmonth as [Hm1 Hm2], Hday as [Hd1 Hd2].
  apply Nat.eqb_eq in Hy1, Hm1, Hd1.
  destruct (Sample.digits (String_of_number (JsDate.getFullYear date)) 0); [|discriminate].
  destruct (Sample.digits (padStart 2 "0" (String_of_number (JsDate.getMonth date + 1))) 0);
    [|discriminate].
  destruct (Sample.digits (padStart 2 "0" (String_of_number (JsDate.getDate date))) 0);
    [|discriminate].
  apply Z.eqb_eq in Hy2, Hm2, Hd2. subst. auto 10.
Qed.

Lemma formatDate_is_YYYY_MM_DD_witness :
  exists yyyy mm dd,
    formatDate (JsDate.mk 2026 1 3) = yyyy +:+ "/" +:+ mm +:+ "/" +:+ dd /\
    String.length yyyy = 4%nat /\ Sample.digits yyyy 0 = Some 2026 /\
    String.length mm = 2%nat /\ Sample.digits mm 0 = Some (1 + 1) /\
    String.length dd = 2%nat /\ Sample.digits dd 0 = Some 3.
Proof. apply (formatDate_is_YYYY_MM_DD (JsDate.mk 2026 1 3)); simpl; lia. Defined.

(** ** More on the search collector and the context *)

Lemma allRawResults_all_throw (tvly : TavilyClient) (searchString : string) (sites : list Site) :
  (forall query options, exists e, tvly query options = Throws e) ->
  allRawResults tvly searchString sites = Returns [].
Proof.
  intros Hthrows. rewrite allRawResults_returns. f_equal.
  induction sites as [|site sites IH]; [reflexivity|].
  unfold flat in *. simpl. rewrite IH. unfold source_results.
  destruct (Hthrows (site_query searchString site) (site_options site)) as [e ->].
  reflexivity.
Qed.

(** X6. When every search call throws, neither the batch script nor the
    route handler stops there: each goes on to ask the model, with a
    prompt whose data part is empty. *)
Theorem extraction_runs_on_no_hits (w : World) (googleAI : Provider) (tvly : TavilyClient) :
  (forall query options, exists e, tvly query options = Throws e) ->
  script_extraction w googleAI tvly =
    generateObject (googleAI "gemini-2.5-flash") EventSchema
      (script_prompt (startDate (getDynamicDateParams (now w)))
                     (endDate (getDynamicDateParams (now w))) "") /\
  route_extraction w tvly =
    generateObject (google w "gemini-2.5-flash") EventSchema
      (route_prompt (startDate (getDynamicDateParams (now w)))
                    (endDate (getDynamicDateParams (now w))) "").
Proof.
  intros Hthrows. unfold script_extraction, route_extraction. cbv zeta.
  rewrite (allRawResults_all_throw tvly _ TARGET_SITES Hthrows). split; reflexivity.
Qed.

Lemma extraction_runs_on_no_hits_witness :
  script_extraction Sample.dated_world Sample.dated_provider
      (fun _ _ => Throws (ErrorObject "fetch failed")) =
    generateObject (Sample.dated_provider "gemini-2.5-flash") EventSchema
      (script_prompt (startDate (getDynamicDateParams (now Sample.dated_world)))
                     (endDate (getDynamicDateParams (now Sample.dated_world))) "") /\
  route_extraction Sample.dated_world (fun _ _ => Throws (ErrorObject "fetch failed")) =
    generateObject (google Sample.dated_world "gemini-2.5-flash") EventSchema
      (route_prompt (startDate (getDynamicDateParams (now Sample.dated_world)))
                    (endDate (getDynamicDateParams (now Sample.dated_world))) "").
Proof.
  apply (extraction_runs_on_no_hits Sample.dated_world Sample.dated_provider
           (fun _ _ => Throws (ErrorObject "fetch failed"))).
  intros query options. now exists (ErrorObject "fetch failed").
Defined.

(** X7. The pipeline knows a search client by the hits of its calls
    only: a call that throws, whatever it throws, counts as a call that
    returns no hit.  Two clients that bring the same hits for every
    configured source lead to the same extraction, in the batch script
    and in the route handler. *)
Theorem thrown_search_error_is_an_empty_result
    (w : World) (googleAI : Provider) (tvly1 tvly2 : TavilyClient) :
  (forall site, In site TARGET_SITES ->
     source_results tvly1 (searchString (getDynamicDateParams (now w))) site =
     source_results tvly2 (searchString (getDynamicDateParams (now w))) site) ->
  script_extraction w googleAI tvly1 = script_extraction w googleAI tvly2 /\
  route_extraction w tvly1 = route_extraction w tvly2.
Proof.
  intros Hsame. unfold script_extraction, route_extraction. cbv zeta.
  rewrite !allRawResults_returns.
  rewrite (map_ext_in _ _ _ Hsame). split; reflexivity.
Qed.

Lemma thrown_search_error_is_an_empty_result_witness :
  script_extraction Sample.quota_world Sample.dated_provider Sample.client =
    script_extraction Sample.quota_world Sample.dated_provider
      (fun query options =>
         if includes query "site:kham.com.tw" then Throws (OtherValue "429 quota exceeded")
         else Sample.client query options) /\
  route_extraction Sample.quota_world Sample.client =
    route_extraction Sample.quota_world
      (fun query options =>
         if includes query "site:kham.com.tw" then Throws (OtherValue "429 quota exceeded")
         else Sample.client query options).
Proof.
  apply (thrown_search_error_is_an_empty_result Sample.quota_world Sample.dated_provider).
  intros site Hin. simpl in Hin.
  repeat (destruct Hin as [<-|Hin]; [vm_compute; reflexivity|]). contradiction.
Defined.





(** ** More on the schema *)

Lemma parse_items_map {A : Type} (item : Zod.Schema A) (encode : A -> Json) (l : list A) :
  (forall a, In a l -> item (encode a) = Some a) ->
  Zod.parse_items item (map encode l) = Some l.
Proof.
  induction l as [|a l IH]; intros Hitem; simpl; [reflexivity|].
  rewrite (Hitem a) by now left. rewrite IH; [reflexivity|].
  intros b Hb. apply Hitem. now right.
Qed.

Lemma parse_items_Some {A : Type} (item : Zod.Schema A) (items : list Json) (l : list A) :
  Zod.parse_items item items = Some l -> Forall2 (fun v a => item v = Some a) items l.
Proof.
  revert l. induction items as [|v items IH]; intros l; simpl.
  - intros H. inversion H. constructor.
  - destruct (item v) as [a|] eqn:Ev; [|discriminate].
    destruct (Zod.parse_items item items) as [l'|]; [|discriminate].
    intros H. inversion H; subst. constructor; [assumption|]. now apply IH.
Qed.

Lemma parse_items_None {A : Type} (item : Zod.Schema A) (items : list Json) :
  Zod.parse_items item items = None <-> exists v, In v items /\ item v = None.
Proof.
  induction items as [|v items IH]; simpl.
  - split; [discriminate|]. intros (v & [] & _).
  - destruct (item v) as [a|] eqn:Ev.
    + destruct (Zod.parse_items item items) as [l|].
      * split; [discriminate|]. intros (v' & [<-|Hin] & Hnone); [congruence|].
        assert (H : Some l = None) by (apply IH; eauto). discriminate.
      * split; [|reflexivity]. intros _.
        destruct (proj1 IH eq_refl) as (v' & Hin & Hnone). eauto.
    + split; [|reflexivity]. intros _. exists v. auto.
Qed.

Lemma SessionSchema_to_json (s : Session.t) : SessionSchema (Session_to_json s) = Some s.
Proof.
  destruct s as [location date url]. unfold Session_to_json, session_json, SessionSchema.
  simpl. unfold Zod.required. simpl.
  rewrite (proj2 (parse_items_strings (map JString date) date) eq_refl). reflexivity.
Qed.

Lemma enum_In (labels : list string) (s : string) :
  Zod.enum labels (JString s) = Some s <-> In s labels.
Proof.
  unfold Zod.enum. rewrite <- existsb_eqb_In.
  destruct (existsb (String.eqb s) labels); split; congruence.
Qed.

Lemma enum_Some (labels : list string) (v : Json) (s : string) :
  Zod.enum labels v = Some s -> v = JString s /\ In s labels.
Proof.
  unfold Zod.enum. destruct v; try discriminate.
  destruct (existsb (String.eqb s0) labels) eqn:E; [|discriminate].
  intros H. inversion H; subst. split; [reflexivity|]. now apply existsb_eqb_In.
Qed.

Lemma EventItemSchema_to_json (e : Event.t) :
  EventItemSchema (Event_to_json e) = Some e <->
  In (Event.category e) category_labels /\ In (Event.source e) source_labels.
Proof.
  destruct e as [description title image_url sessions category tags url source].
  unfold EventItemSchema, EventCategoryEnum, Event_to_json, Zod.object. simpl.
  pose proof (parse_items_map SessionSchema Session_to_json sessions
                (fun s _ => SessionSchema_to_json s)) as Hsessions.
  pose proof (enum_In category_labels category) as Hcategory.
  pose proof (enum_In source_labels source) as Hsource.
  unfold category_labels in Hcategory. unfold source_labels in Hsource.
  destruct image_url as [image|]; destruct tags as [tags|];
    unfold Zod.required, Zod.optional; cbn [property optional_property option_map app];
    cbn [String.eqb Ascii.eqb Bool.eqb];
    cbn [Zod.string_ Zod.array option_map mbind option_bind];
    rewrite ?Hsessions;
    try rewrite (proj2 (parse_items_strings (map JString tags) tags) eq_refl);
    cbn [option_map mbind option_bind].
  all: destruct (Zod.enum _ (JString category)) as [c|] eqn:Ec;
       [apply enum_Some in Ec; destruct Ec as [Ec Hc]; inversion Ec; subst c
       |cbn [mbind option_bind]; split; [discriminate|];
        intros [Hc _]; apply Hcategory in Hc; discriminate].
  all: cbn [mbind option_bind].
  all: destruct (Zod.enum _ (JString source)) as [s|] eqn:Es;
       [apply enum_Some in Es; destruct Es as [Es Hs]; inversion Es; subst s
       |cbn [mbind option_bind]; split; [discriminate|];
        intros [_ Hs]; apply Hsource in Hs; discriminate].
  all: cbn [mbind option_bind]; split; [intros _; split; assumption|reflexivity].
Qed.

Lemma EventItemSchema_labels (v : Json) (e : Event.t) :
  EventItemSchema v = Some e ->
  In (Event.category e) category_labels /\ In (Event.source e) source_labels.
Proof.
  unfold EventItemSchema, EventCategoryEnum, Zod.object.
  destruct v as [| | | | |fields]; try discriminate.
  destruct (Zod.required Zod.string_ "description" fields); [|discriminate].
  destruct (Zod.required Zod.string_ "title" fields); [|discriminate].
  destruct (Zod.optional Zod.string_ "image_url" fields); [|discriminate].
  destruct (Zod.required (Zod.array SessionSchema) "sessions" fields); [|discriminate].
  cbn [mbind option_bind].
  destruct (Zod.required _ "category" fields) as [cat|] eqn:Ec; [|discriminate].
  destruct (Zod.optional (Zod.array Zod.string_) "tags" fields); [|discriminate].
  destruct (Zod.required Zod.string_ "url" fields); [|discriminate].
  cbn [mbind option_bind].
  destruct (Zod.required _ "source" fields) as [src|] eqn:Es; [|discriminate].
  cbn [mbind option_bind]. intros H. inversion H; subst. simpl.
  unfold Zod.required in Ec, Es.
  destruct (property "category" fields); [|discriminate].
  destruct (property "source" fields); [|discriminate].
  apply enum_Some in Ec, Es. split; [apply Ec|apply Es].
Qed.

Lemma EventSchema_to_json (o : EventsObject) :
  Forall (fun e => In (Event.category e) category_labels /\ In (Event.source e) source_labels)
         (events o) ->
  EventSchema (EventsObject_to_json o) = Some o.
Proof.
  intros Hlabels. destruct o as [events]. simpl in Hlabels.
  unfold EventSchema, EventsObject_to_json, Zod.object, Zod.required. simpl.
  rewrite (parse_items_map EventItemSchema Event_to_json events); [reflexivity|].
  intros e He. apply (proj2 (EventItemSchema_to_json e)).
  rewrite Forall_forall in Hlabels. now apply Hlabels.
Qed.

(** X9. Validation of the model's answer is all or nothing: an answer
    whose [events] is an array is refused as a whole exactly when one of
    its elements is not a valid event.  No event is dropped or repaired
    to let the others through. *)
Theorem one_invalid_event_refuses_the_answer
    (fields : list (string * Json)) (items : list Json) :
  property "events" fields = Some (JArray items) ->
  (EventSchema (JObject fields) = None <->
   exists v, In v items /\ EventItemSchema v = None).
Proof.
  intros Hevents. unfold EventSchema, Zod.object, Zod.required. rewrite Hevents.
  cbn [Zod.array]. rewrite <- parse_items_None.
  destruct (Zod.parse_items EventItemSchema items); cbn [mbind option_bind];
    split; congruence.
Qed.

Lemma one_invalid_event_refuses_the_answer_witness :
  EventSchema (JObject [("events", JArray [Sample.event_json "Late" []; JNull])]) = None <->
  exists v, In v [Sample.event_json "Late" []; JNull] /\ EventItemSchema v = None.
Proof.
  apply (one_invalid_event_refuses_the_answer
           [("events", JArray [Sample.event_json "Late" []; JNull])]
           [Sample.event_json "Late" []; JNull]).
  reflexivity.
Defined.

(** X10. A typed events object, written as JSON, passes the schema and
    reads back as itself exactly when the category and the source of
    every event are labels of the two enumerations; the schema asks
    nothing else of it (any text, any number of sessions and of dates). *)
Theorem written_events_validate_iff_labels_known (o : EventsObject) :
  EventSchema (EventsObject_to_json o) = Some o <->
  Forall (fun e => In (Event.category e) category_labels /\ In (Event.source e) source_labels)
         (events o).
Proof.
  split; [|apply EventSchema_to_json].
  destruct o as [events]. unfold EventSchema, EventsObject_to_json, Zod.object, Zod.required.
  simpl. destruct (Zod.parse_items EventItemSchema (map Event_to_json events)) as [l|] eqn:E;
    cbn [mbind option_bind]; [|discriminate].
  intros H. inversion H; subst. apply parse_items_Some in E.
  apply Forall_forall. intros e He.
  assert (Hparsed : exists v, EventItemSchema v = Some e).
  { clear -E He. induction E as [|v e' items l Hv _ IH]; [contradiction|].
    destruct He as [<-|He]; eauto. }
  destruct Hparsed as [v Hv]. now apply (EventItemSchema_labels v).
Qed.

(** ** What is published, what is answered *)

Lemma generateObject_Returns {A : Type} (model : Model) (schema : Zod.Schema A)
    (prompt : string) (object : A) :
  generateObject model schema prompt = Returns object ->
  exists answer, model prompt = Returns answer /\ schema answer = Some object.
Proof.
  unfold generateObject, bind. destruct (model prompt) as [answer|]; [|discriminate].
  destruct (schema answer) as [o|] eqn:E; [|discriminate].
  intros H. inversion H; subst. eauto.
Qed.

Lemma EventSchema_labels (answer : Json) (object : EventsObject) :
  EventSchema answer = Some object ->
  Forall (fun e => In (Event.category e) category_labels /\ In (Event.source e) source_labels)
         (events object).
Proof.
  unfold EventSchema, Zod.object. destruct answer as [| | | | |fields]; try discriminate.
  unfold Zod.required. destruct (property "events" fields) as [v|]; [|discriminate].
  unfold Zod.array. destruct v as [| | | |items|]; try discriminate.
  destruct (Zod.parse_items EventItemSchema items) as [l|] eqn:E; [|discriminate].
  cbn [mbind option_bind]. intros H. inversion H; subst. cbn [events]. clear H.
  apply parse_items_Some in E. induction E as [|v e items l Hv _ IH]; constructor.
  - now apply (EventItemSchema_labels v).
  - exact IH.
Qed.

Lemma script_extraction_validated (w : World) (googleAI : Provider) (tvly : TavilyClient)
    (object : EventsObject) :
  script_extraction w googleAI tvly = Returns object ->
  exists answer, EventSchema answer = Some object.
Proof.
  unfold script_extraction. cbv zeta. rewrite allRawResults_returns. simpl.
  intros H. apply generateObject_Returns in H. destruct H as (answer & _ & H). eauto.
Qed.

(** X11. Whatever a batch run publishes conforms to the schema: written as
    JSON, the published events pass [EventSchema] and read back as they
    are.  The sort keeps them valid, and nothing is published that did
    not pass validation. *)
Theorem published_events_conform_to_the_schema
    (w : World) (googleAI : Provider) (published : list Event.t) :
  main w googleAI = Returns published ->
  EventSchema (EventsObject_to_json (mkEventsObject published)) =
    Some (mkEventsObject published).
Proof.
  unfold main, bind.
  destruct (tavily w _) as [tvly|]; [|discriminate].
  destruct (script_extraction w googleAI tvly) as [object|] eqn:Hextract; [|discriminate].
  intros H. inversion H; subst. apply EventSchema_to_json. simpl.
  apply script_extraction_validated in Hextract. destruct Hextract as [answer Hanswer].
  eapply Permutation_Forall; [apply sort_permutation|].
  now apply (EventSchema_labels answer).
Qed.

Lemma published_events_conform_to_the_schema_witness :
  EventSchema (EventsObject_to_json
                 (mkEventsObject [Sample.middle; Sample.undated; Sample.early])) =
    Some (mkEventsObject [Sample.middle; Sample.undated; Sample.early]).
Proof.
  apply (published_events_conform_to_the_schema Sample.undated_world
           (fun _ _ => Returns Sample.undated_answer)).
  vm_compute. reflexivity.
Defined.


(** ** The page: sorting *)

Lemma insert_or_throw_pure {A : Type} (comparefn : A -> A -> Outcome (option Z))
    (f : A -> A -> option Z) (x : A) (l : list A) :
  (forall y, In y l -> comparefn x y = Returns (f x y)) ->
  insert_or_throw comparefn x l = Returns (JsArray.insert f x l).
Proof.
  induction l as [|y l IH]; intros Hpure; simpl; [reflexivity|].
  rewrite (Hpure y) by now left. simpl.
  destruct (JsArray.answer (f x y) <=? 0); [reflexivity|].
  rewrite IH; [reflexivity|]. intros z Hz. apply Hpure. now right.
Qed.

Lemma sort_or_throw_pure {A : Type} (comparefn : A -> A -> Outcome (option Z))
    (f : A -> A -> option Z) (l : list A) :
  (forall x y, In x l -> In y l -> comparefn x y = Returns (f x y)) ->
  sort_or_throw comparefn l = Returns (JsArray.sort f l).
Proof.
  induction l as [|x l IH]; intros Hpure; simpl; [reflexivity|].
  rewrite IH by (intros a b Ha Hb; apply Hpure; now right). simpl.
  apply insert_or_throw_pure. intros y Hy. apply Hpure; [now left|]. right.
  eapply Permutation_in; [symmetry; apply sort_permutation|exact Hy].
Qed.

Lemma page_comparator_with_sessions (Date_parse : string -> option Z) (a b : Event.t) :
  Event.sessions a <> [] -> Event.sessions b <> [] ->
  Page.by_leading_date Date_parse a b = Returns (by_leading_date Date_parse a b).
Proof.
  intros Ha Hb. unfold Page.by_leading_date, by_leading_date, Page.leading_date, leading_date.
  destruct (Event.sessions a) as [|sa ?]; [contradiction|].
  destruct (Event.sessions b) as [|sb ?]; [contradiction|]. simpl.
  destruct (Session.date sa), (Session.date sb); reflexivity.
Qed.

Lemma page_comparator_without_sessions (Date_parse : string -> option Z) (a b : Event.t) :
  Event.sessions a = [] \/ Event.sessions b = [] ->
  Page.by_leading_date Date_parse a b = Throws Page.TypeError_date.
Proof.
  intros H. unfold Page.by_leading_date, Page.leading_date.
  destruct (Event.sessions a) as [|sa ?]; [reflexivity|].
  destruct H as [H|H]; [discriminate|]. rewrite H. reflexivity.
Qed.

Lemma sortEvents_with_sessions (Date_parse : string -> option Z) (events : list Event.t) :
  Forall (fun e => Event.sessions e <> []) events ->
  Page.sortEvents Date_parse events = Returns (JsArray.sort (by_leading_date Date_parse) events).
Proof.
  intros Hsessions. apply sort_or_throw_pure. rewrite Forall_forall in Hsessions.
  intros a b Ha Hb. apply page_comparator_with_sessions; auto.
Qed.

Section SortedAlready.
Context {A : Type} (comparefn : A -> A -> option Z) (key : A -> Z).

Lemma sort_of_sorted (l : list A) :
  (forall x y, In x l -> In y l -> comparefn x y = Some (key x - key y)) ->
  StronglySorted (fun a b => key a <= key b) l ->
  JsArray.sort comparefn l = l.
Proof.
  intros Hcmp Hsorted. induction Hsorted as [|x l Hl IH Hx]; [reflexivity|].
  simpl. rewrite IH by (intros a b Ha Hb; apply Hcmp; now right).
  destruct l as [|y l]; [reflexivity|]. simpl.
  rewrite (Hcmp x y) by (simpl; auto). simpl.
  inversion Hx; subst. destruct (Z.leb_spec (key x - key y) 0); [reflexivity|lia].
Qed.

End SortedAlready.

(** X13. On events whose leading dates can all be read, and read by
    the browser as by the engine of the batch run, the sort of the page
    does not throw and gives what the sort of the batch script gives: the
    same events, in calendar order of their leading dates. *)
Theorem page_sort_is_the_batch_sort (Date_parse : string -> option Z) (events : list Event.t) :
  Forall (has_leading_date Date_parse) events ->
  Page.sortEvents Date_parse events =
    Returns (JsArray.sort (by_leading_date Date_parse) events) /\
  Permutation events (JsArray.sort (by_leading_date Date_parse) events) /\
  StronglySorted (leading_date_le Date_parse)
    (JsArray.sort (by_leading_date Date_parse) events).
Proof.
  intros Hdated. split; [|split].
  - apply sortEvents_with_sessions.
    eapply Forall_impl; [|exact Hdated].
    intros e [t Ht]. unfold leading_date in Ht. intros Hnil. rewrite Hnil in Ht. discriminate.
  - apply sort_permutation.
  - now apply sort_by_leading_date_sorted.
Qed.

(** X14. The page sorts again what the batch script has sorted; when every
    leading date can be read, and the browser reads date strings as the
    engine of the batch run does, the second sort changes nothing: the
    page shows the events in the order of the published file. *)
Theorem page_keeps_the_published_order (Date_parse : string -> option Z) (events : list Event.t) :
  Forall (has_leading_date Date_parse) events ->
  Page.sortEvents Date_parse (JsArray.sort (by_leading_date Date_parse) events) =
    Returns (JsArray.sort (by_leading_date Date_parse) events).
Proof.
  intros Hdated.
  assert (Hsorted_dated :
            Forall (has_leading_date Date_parse) (JsArray.sort (by_leading_date Date_parse) events))
    by (eapply Permutation_Forall; [apply sort_permutation|exact Hdated]).
  rewrite sortEvents_with_sessions.
  - f_equal.
    apply (sort_of_sorted _ (fun e => match Date_valueOf Date_parse (leading_date e) with
                                      | Some t => t
                                      | None => 0
                                      end)).
    + rewrite Forall_forall in Hsorted_dated. intros a b Ha Hb.
      destruct (Hsorted_dated a Ha) as [ta Hta]. destruct (Hsorted_dated b Hb) as [tb Htb].
      unfold by_leading_date. now rewrite Hta, Htb.
    + apply (StronglySorted_among (has_leading_date Date_parse) (leading_date_le Date_parse));
        [|exact Hsorted_dated|now apply sort_by_leading_date_sorted].
      intros a b [ta Hta] [tb Htb]. unfold leading_date_le. now rewrite Hta, Htb.
  - eapply Forall_impl; [|exact Hsorted_dated].
    intros e [t Ht]. unfold leading_date in Ht. intros Hnil. rewrite Hnil in Ht. discriminate.
Qed.

Lemma sessions_nil_dec (e : Event.t) :
  {Event.sessions e = nil} + {Event.sessions e <> nil}.
Proof. destruct (Event.sessions e); [now left|now right]. Qed.

(** X15. Where the batch script reads the leading date with [?.], the page
    does not: its sort throws as soon as one of two or more events has no
    session, and the events are not shown. *)
Theorem page_sort_throws_on_an_event_without_session
    (Date_parse : string -> option Z) (events : list Event.t) (e : Event.t) :
  In e events -> Event.sessions e = [] -> (2 <= length events)%nat ->
  Page.sortEvents Date_parse events = Throws Page.TypeError_date.
Proof.
  unfold Page.sortEvents. revert e.
  induction events as [|x rest IH]; intros e Hin Hnone Hlen; [contradiction|].
  simpl in Hlen. simpl.
  destruct (Forall_Exists_dec (fun e => Event.sessions e <> [])
              (fun e => match sessions_nil_dec e with
                        | left H => right (fun H' => H' H)
                        | right H => left H
                        end) rest) as [Hgood|Hbad].
  - (* the event without session is the first one *)
    assert (Hx : Event.sessions x = []).
    { destruct Hin as [->|Hin]; [assumption|].
      rewrite Forall_forall in Hgood. now destruct (Hgood e Hin). }
    pose proof (sortEvents_with_sessions Date_parse rest Hgood) as Hrest.
    unfold Page.sortEvents in Hrest. rewrite Hrest. simpl.
    destruct (JsArray.sort (by_leading_date Date_parse) rest) as [|y sorted] eqn:Esorted.
    + pose proof (sort_permutation (by_leading_date Date_parse) rest) as Hperm.
      rewrite Esorted in Hperm. apply Permutation_sym, Permutation_nil in Hperm.
      subst rest. simpl in Hlen. lia.
    + simpl. rewrite page_comparator_without_sessions by now left. reflexivity.
  - apply Exists_exists in Hbad. destruct Hbad as (e' & Hin' & Hnone').
    assert (He' : Event.sessions e' = [])
      by (destruct (sessions_nil_dec e'); [assumption|contradiction]).
    destruct rest as [|y [|z rest]]; [contradiction| |].
    + destruct Hin' as [->|[]]. simpl.
      rewrite page_comparator_without_sessions by now right. reflexivity.
    + rewrite (IH e' Hin' He') by (simpl; lia). reflexivity.
Qed.

Lemma page_sort_throws_on_an_event_without_session_witness :
  Page.sortEvents Sample.Date_parse [Sample.early; Sample.event_of "No session" []] =
    Throws Page.TypeError_date.
Proof.
  apply (page_sort_throws_on_an_event_without_session Sample.Date_parse
           [Sample.early; Sample.event_of "No session" []]
           (Sample.event_of "No session" [])).
  - right. left. reflexivity.
  - reflexivity.
  - simpl. lia.
Defined.

Lemma page_sort_is_the_batch_sort_witness :
  Page.sortEvents Sample.Date_parse [Sample.late; Sample.early; Sample.middle] =
    Returns (JsArray.sort (by_leading_date Sample.Date_parse)
               [Sample.late; Sample.early; Sample.middle]) /\
  Permutation [Sample.late; Sample.early; Sample.middle]
    (JsArray.sort (by_leading_date Sample.Date_parse)
       [Sample.late; Sample.early; Sample.middle]) /\
  StronglySorted (leading_date_le Sample.Date_parse)
    (JsArray.sort (by_leading_date Sample.Date_parse)
       [Sample.late; Sample.early; Sample.middle]).
Proof.
  apply (page_sort_is_the_batch_sort Sample.Date_parse
           [Sample.late; Sample.early; Sample.middle]).
  repeat constructor; eexists; vm_compute; reflexivity.
Defined.

Lemma page_keeps_the_published_order_witness :
  Page.sortEvents Sample.Date_parse
      (JsArray.sort (by_leading_date Sample.Date_parse)
         [Sample.late; Sample.early; Sample.middle]) =
    Returns (JsArray.sort (by_leading_date Sample.Date_parse)
               [Sample.late; Sample.early; Sample.middle]).
Proof.
  apply (page_keeps_the_published_order Sample.Date_parse
           [Sample.late; Sample.early; Sample.middle]).
  repeat constructor; eexists; vm_compute; reflexivity.
Defined.

(** ** The page: filters *)

Lemma JsSet_add_In (x y : string) (s : JsSet.t) :
  In x (JsSet.add y s) <-> x = y \/ In x s.
Proof.
  unfold JsSet.add. destruct (existsb (String.eqb y) s) eqn:E.
  - apply existsb_eqb_In in E. split; [now right|]. intros [->|H]; assumption.
  - rewrite in_app_iff. simpl. split; [intros [H|[H|[]]]; auto|intros [H|H]; auto].
Qed.

Lemma JsSet_add_NoDup (y : string) (s : JsSet.t) : NoDup s -> NoDup (JsSet.add y s).
Proof.
  intros Hnd. unfold JsSet.add. destruct (existsb (String.eqb y) s) eqn:E; [assumption|].
  assert (Hnin : ~ In y s).
  { intros H. apply existsb_eqb_In in H. congruence. }
  apply NoDup_app; [assumption|repeat constructor; auto|].
  intros x Hx [<-|[]]. contradiction.
Qed.

Lemma add_all_In (x : string) (xs : list string) (s : JsSet.t) :
  In x (Page.add_all xs s) <-> In x xs \/ In x s.
Proof.
  unfold Page.add_all. revert s. induction xs as [|y xs IH]; intros s; simpl; [tauto|].
  rewrite IH, JsSet_add_In. intuition.
Qed.

Lemma add_all_NoDup (xs : list string) (s : JsSet.t) : NoDup s -> NoDup (Page.add_all xs s).
Proof.
  unfold Page.add_all. revert s. induction xs as [|y xs IH]; intros s Hnd; simpl; [assumption|].
  apply IH. now apply JsSet_add_NoDup.
Qed.

(** What a set holds after each event has added its values to it. *)
Lemma fold_add_In (values : Event.t -> list string) (events : list Event.t)
    (s : JsSet.t) (x : string) :
  In x (fold_left (fun s event => Page.add_all (values event) s) events s) <->
  In x s \/ exists e, In e events /\ In x (values e).
Proof.
  revert s. induction events as [|e events IH]; intros s; simpl.
  - split; [auto|]. intros [H|(e & [] & _)]. exact H.
  - rewrite IH, add_all_In. split.
    + intros [[H|H]|(e' & He' & Hx)]; eauto 6.
    + intros [H|(e' & [<-|He'] & Hx)]; eauto 6.
Qed.

Lemma fold_add_NoDup (values : Event.t -> list string) (events : list Event.t) (s : JsSet.t) :
  NoDup s -> NoDup (fold_left (fun s event => Page.add_all (values event) s) events s).
Proof.
  revert s. induction events as [|e events IH]; intros s Hnd; simpl; [assumption|].
  apply IH. now apply add_all_NoDup.
Qed.

Lemma fold_left_same {A B : Type} (f g : A -> B -> A) (l : list B) (a : A) :
  (forall a b, f a b = g a b) -> fold_left f l a = fold_left g l a.
Proof.
  intros Hext. revert a. induction l as [|b l IH]; intros a; simpl; [reflexivity|].
  now rewrite Hext, IH.
Qed.

Lemma filterOptions_categories (events : list Event.t) :
  Permutation
    (fold_left (fun s event => Page.add_all [Event.category event] s) events [])
    (Page.categories (Page.filterOptions events)).
Proof. apply sort_permutation. Qed.

Lemma filterOptions_locations (events : list Event.t) :
  Permutation
    (fold_left (fun s event => Page.add_all (map Session.location (Event.sessions event)) s)
               events [])
    (Page.locations (Page.filterOptions events)).
Proof. apply sort_permutation. Qed.

Lemma filterOptions_tags (events : list Event.t) :
  Permutation
    (fold_left (fun s event =>
                  Page.add_all (match Event.tags event with Some ts => ts | None => [] end) s)
               events [])
    (Page.tags (Page.filterOptions events)).
Proof.
  unfold Page.filterOptions. cbn [Page.tags].
  rewrite (fold_left_same
             (fun s event =>
                Page.add_all (match Event.tags event with Some ts => ts | None => [] end) s)
             (fun s event =>
                match Event.tags event with
                | Some ts => Page.add_all ts s
                | None => s
                end));
    [apply sort_permutation|].
  intros s e. destruct (Event.tags e); reflexivity.
Qed.

(** X16. The filter options are the values the events have, each listed
    once: a category is offered exactly when some event has it, a
    location exactly when some session of some event has it, a tag
    exactly when some event carries it, and no option comes twice. *)
Theorem filter_options_are_the_values_present (events : list Event.t) :
  (forall c, In c (Page.categories (Page.filterOptions events)) <->
             exists e, In e events /\ Event.category e = c) /\
  (forall l, In l (Page.locations (Page.filterOptions events)) <->
             exists e s, In e events /\ In s (Event.sessions e) /\ Session.location s = l) /\
  (forall t, In t (Page.tags (Page.filterOptions events)) <->
             exists e ts, In e events /\ Event.tags e = Some ts /\ In t ts) /\
  NoDup (Page.categories (Page.filterOptions events)) /\
  NoDup (Page.locations (Page.filterOptions events)) /\
  NoDup (Page.tags (Page.filterOptions events)).
Proof.
  pose proof (filterOptions_categories events) as Hc.
  pose proof (filterOptions_locations events) as Hl.
  pose proof (filterOptions_tags events) as Ht.
  repeat split.
  - intros H. apply (Permutation_in _ (Permutation_sym Hc)) in H.
    apply fold_add_In in H. destruct H as [[]|(e & He & [<-|[]])]. eauto.
  - intros (e & He & <-). apply (Permutation_in _ Hc). apply fold_add_In.
    right. exists e. split; [assumption|now left].
  - intros H. apply (Permutation_in _ (Permutation_sym Hl)) in H.
    apply fold_add_In in H. destruct H as [[]|(e & He & Hin)].
    apply in_map_iff in Hin. destruct Hin as (s & <- & Hs). eauto.
  - intros (e & s & He & Hs & <-). apply (Permutation_in _ Hl). apply fold_add_In.
    right. exists e. split; [assumption|]. now apply in_map.
  - intros H. apply (Permutation_in _ (Permutation_sym Ht)) in H.
    apply fold_add_In in H. destruct H as [[]|(e & He & Hin)].
    destruct (Event.tags e) as [ts|] eqn:E; [eauto|contradiction].
  - intros (e & ts & He & Htags & Hin). apply (Permutation_in _ Ht). apply fold_add_In.
    right. exists e. split; [assumption|]. now rewrite Htags.
  - apply (Permutation_NoDup Hc). apply fold_add_NoDup. constructor.
  - apply (Permutation_NoDup Hl). apply fold_add_NoDup. constructor.
  - apply (Permutation_NoDup Ht). apply fold_add_NoDup. constructor.
Qed.

Lemma shown_splits (c l t : option string) (e : Event.t) :
  Page.shown c l t e =
  Page.shown c None None e && Page.shown None l None e && Page.shown None None t e.
Proof.
  unfold Page.shown. simpl.
  destruct (Page.holds_back c _), (Page.holds_back l _), (Page.holds_back t _); reflexivity.
Qed.

(** X17. Filters add up, in any order: filtering by category, then the
    result by location, then that by tag, gives what the three filters
    give together, and so does taking them in the opposite order. *)
Theorem filters_compose (events : list Event.t) (c l t : option string) :
  Page.filteredEvents
    (Page.filteredEvents (Page.filteredEvents events c None None) None l None) None None t =
    Page.filteredEvents events c l t /\
  Page.filteredEvents
    (Page.filteredEvents (Page.filteredEvents events None None t) None l None) c None None =
    Page.filteredEvents events c l t.
Proof.
  unfold Page.filteredEvents. rewrite !filter_filter. split; apply filter_ext; intros e.
  - rewrite (shown_splits c l t e).
    destruct (Page.shown c None None e), (Page.shown None l None e),
      (Page.shown None None t e); reflexivity.
  - rewrite (shown_splits c l t e).
    destruct (Page.shown c None None e), (Page.shown None l None e),
      (Page.shown None None t e); reflexivity.
Qed.

(** X18. No offered category is a dead end: choosing a category from
    the filter options leaves at least one event on the page. *)
Theorem offered_category_shows_an_event (events : list Event.t) (category : string) :
  In category (Page.categories (Page.filterOptions events)) ->
  exists e, In e (Page.filteredEvents events (Some category) None None).
Proof.
  intros H. apply (Permutation_in _ (Permutation_sym (filterOptions_categories events))) in H.
  apply fold_add_In in H. destruct H as [[]|(e & He & [Hc|[]])].
  exists e. unfold Page.filteredEvents. apply filter_In. split; [assumption|].
  unfold Page.shown, Page.holds_back. rewrite Hc, String.eqb_refl.
  now destruct (String.eqb category "").
Qed.

(** X19. No offered tag is a dead end either. *)
Theorem offered_tag_shows_an_event (events : list Event.t) (tag : string) :
  In tag (Page.tags (Page.filterOptions events)) ->
  exists e, In e (Page.filteredEvents events None None (Some tag)).
Proof.
  intros H. apply (Permutation_in _ (Permutation_sym (filterOptions_tags events))) in H.
  apply fold_add_In in H. destruct H as [[]|(e & He & Hin)].
  exists e. unfold Page.filteredEvents. apply filter_In. split; [assumption|].
  unfold Page.shown, Page.holds_back. simpl.
  assert (Hex : existsb (fun t' => String.eqb t' tag)
                  (match Event.tags e with Some ts => ts | None => [] end) = true).
  { apply existsb_exists. exists tag. split; [assumption|apply String.eqb_refl]. }
  rewrite Hex. now destruct (String.eqb tag "").
Qed.

Lemma offered_category_shows_an_event_witness :
  exists e, In e (Page.filteredEvents [Sample.early; Sample.late] (Some "演唱會") None None).
Proof.
  apply (offered_category_shows_an_event [Sample.early; Sample.late] "演唱會").
  vm_compute. now left.
Defined.

Lemma offered_tag_shows_an_event_witness :
  exists e,
    In e (Page.filteredEvents
            [Sample.early;
             Event.mk "" "Rock night" None [] "演唱會" (Some ["搖滾"]) "https://kktix.com/r" "KKTIX"]
            None None (Some "搖滾")).
Proof.
  apply (offered_tag_shows_an_event
           [Sample.early;
            Event.mk "" "Rock night" None [] "演唱會" (Some ["搖滾"]) "https://kktix.com/r" "KKTIX"]
           "搖滾").
  vm_compute. now left.
Defined.

(** ** The date texts of the page and of the side panel *)

Lemma append_assoc (a b c : string) : (a +:+ b) +:+ c = a +:+ (b +:+ c).
Proof.
  induction a as [|x a IH]; [reflexivity|].
  change (String x ((a +:+ b) +:+ c) = String x (a +:+ (b +:+ c))). now rewrite IH.
Qed.

Lemma append_empty (s : string) : s +:+ "" = s.
Proof.
  induction s as [|c s IH]; [reflexivity|].
  change (String c (s +:+ "") = String c s). now rewrite IH.
Qed.

Lemma contains_refl (s : string) : contains s s.
Proof.
  exists EmptyString, EmptyString. change (s = s +:+ ""). now rewrite append_empty.
Qed.

Lemma contains_app_l (a b d : string) : contains a d -> contains (a +:+ b) d.
Proof.
  intros (before & after & ->). exists before, (after +:+ b).
  now rewrite !append_assoc.
Qed.

Lemma contains_app_r (a b d : string) : contains b d -> contains (a +:+ b) d.
Proof.
  intros (before & after & ->). exists (a +:+ before), after.
  now rewrite !append_assoc.
Qed.

Lemma join_contains (sep : string) (parts : list string) (d : string) :
  In d parts -> contains (join sep parts) d.
Proof.
  unfold join. induction parts as [|x parts IH]; intros Hin; [contradiction|].
  destruct parts as [|y parts].
  - destruct Hin as [->|[]]. apply contains_refl.
  - change (contains (x +:+ sep +:+ String.concat sep (y :: parts)) d).
    destruct Hin as [->|Hin].
    + apply contains_app_l, contains_refl.
    + apply contains_app_r, contains_app_r, IH, Hin.
Qed.

(** X20. The side panel drops no date: whatever the number of dates of a
    session, each of them is in the text that [formatDate] gives. *)
Theorem side_panel_shows_every_date (dates : list string) (d : string) :
  In d dates -> contains (SidePanel.formatDate dates) d.
Proof.
  intros Hin. unfold SidePanel.formatDate.
  destruct dates as [|d1 [|d2 [|d3 dates]]].
  - contradiction.
  - destruct Hin as [->|[]]. apply contains_refl.
  - destruct Hin as [->|[->|[]]].
    + apply contains_app_l, contains_refl.
    + apply contains_app_r, contains_app_r, contains_refl.
  - now apply join_contains.
Qed.

Lemma side_panel_shows_every_date_witness :
  contains (SidePanel.formatDate ["2026-03-01"; "2026-03-05"; "2026-03-09"]) "2026-03-05".
Proof.
  apply (side_panel_shows_every_date ["2026-03-01"; "2026-03-05"; "2026-03-09"] "2026-03-05").
  right. left. reflexivity.
Defined.

(** X21. For an event whose first session has one date, or two with a
    second that is not empty, the date line of the card is the text the
    side panel gives for that session. *)
Theorem card_and_side_panel_agree
    (event : Event.t) (s : Session.t) (rest : list Session.t) :
  Event.sessions event = s :: rest ->
  (exists d, Session.date s = [d]) \/
  (exists d1 d2, Session.date s = [d1; d2] /\ d2 <> "") ->
  Page.card_date event = Returns (SidePanel.formatDate (Session.date s)).
Proof.
  intros Hsessions Hdates. unfold Page.card_date. rewrite Hsessions.
  destruct Hdates as [[d ->]|(d1 & d2 & -> & Hd2)]; simpl.
  - f_equal. apply append_empty.
  - destruct (String.eqb_spec d2 ""); [contradiction|reflexivity].
Qed.

Lemma card_and_side_panel_agree_witness :
  Page.card_date Sample.early = Returns (SidePanel.formatDate ["2026-03-01"; "2026-03-05"]).
Proof.
  apply (card_and_side_panel_agree Sample.early
           (Session.mk "Zepp" ["2026-03-01"; "2026-03-05"] "https://kktix.com/e") []).
  - reflexivity.
  - right. exists "2026-03-01", "2026-03-05". split; [reflexivity|discriminate].
Defined.
